(** * A relay for chat-completion streams: server route and browser reader

    Shallow embedding of [src/app/api/chat/route.ts] (the POST handler with
    its helpers [sanitizeContent] and [fetchWithRetries]) and of the
    [onResponse] read loop of [src/app/page.tsx].

    JavaScript strings are sequences of UTF-16 code units, values coming out
    of [JSON.parse] or [req.json()] are a tagged union, exceptions are an
    error monad, and the platform built-ins the code calls
    ([String.prototype.normalize], [JSON.parse], [TextDecoder]) are
    parameters of the development; executable models of them are given for
    the closed examples. *)

From Stdlib Require Import List NArith ZArith Bool Ascii String Lia.
From Stdlib Require DecimalString.
Import ListNotations.

Set Warnings "-register-all".
Local Open Scope N_scope.

(* ================================================================== *)
(** * JavaScript strings *)

Definition codeunit := N.
Definition jsstring := list codeunit.
Definition bytes := list N.

(** An ASCII literal of the source, as code units. *)
Definition lit (s : string) : jsstring :=
  map N_of_ascii (list_ascii_of_string s).

(** The same, with every apostrophe of [s] standing for a double quote
    (U+0022); used to write JSON texts. *)
Definition jq (s : string) : jsstring :=
  map (fun c => if N.eqb c 39 then 34 else c) (lit s).

Definition LF : codeunit := 10.

Fixpoint str_eqb (a b : jsstring) : bool :=
  match a, b with
  | [], [] => true
  | x :: a', y :: b' => N.eqb x y && str_eqb a' b'
  | _, _ => false
  end.

(** [s.startsWith(p)] *)
Fixpoint startsWith (p s : jsstring) : bool :=
  match p, s with
  | [], _ => true
  | x :: p', y :: s' => N.eqb x y && startsWith p' s'
  | _ :: _, [] => false
  end.

(** [s.slice(n)] for a non-negative [n] *)
Definition slice (n : nat) (s : jsstring) : jsstring := skipn n s.

(** [s.split(sep)] for a one-unit separator: never the empty array. *)
Fixpoint split (sep : codeunit) (s : jsstring) : list jsstring :=
  match s with
  | [] => [[]]
  | c :: s' =>
      if N.eqb c sep then [] :: split sep s'
      else match split sep s' with
           | [] => [[c]]
           | l :: ls => (c :: l) :: ls
           end
  end.

(** White space and line terminators, as [String.prototype.trim] strips
    them. *)
Definition is_trim_space (c : codeunit) : bool :=
  (N.leb 9 c && N.leb c 13) || N.eqb c 32 || N.eqb c 160 || N.eqb c 5760
  || (N.leb 8192 c && N.leb c 8202) || N.eqb c 8232 || N.eqb c 8233
  || N.eqb c 8239 || N.eqb c 8287 || N.eqb c 12288 || N.eqb c 65279.

Fixpoint trimStart (s : jsstring) : jsstring :=
  match s with
  | c :: s' => if is_trim_space c then trimStart s' else s
  | [] => []
  end.

Definition trimEnd (s : jsstring) : jsstring := rev (trimStart (rev s)).

Definition trim (s : jsstring) : jsstring := trimEnd (trimStart s).

(** [/[a-zA-Z0-9]/.test(c)] for a one-unit string [c]. *)
Definition is_alnum (c : codeunit) : bool :=
  (N.leb 97 c && N.leb c 122) || (N.leb 65 c && N.leb c 90)
  || (N.leb 48 c && N.leb c 57).

(** [/[a-zA-Z0-9]/.test(s)]: some unit of [s] is in the class. *)
Definition test_alnum (s : jsstring) : bool := existsb is_alnum s.

(** [s.replaceAll(from, to)] for a pattern of one code unit, which is what
    every key of the replacement table is. *)
Definition replaceAll (from : codeunit) (to : jsstring) (s : jsstring)
  : jsstring :=
  flat_map (fun c => if N.eqb c from then to else [c]) s.

Definition is_ascii (c : codeunit) : bool := N.leb c 127.

(** [s.replace(/[^\x00-\x7F]/g, '')] *)
Definition strip_non_ascii (s : jsstring) : jsstring := filter is_ascii s.

(** Decimal rendering of a number in a template literal. *)
Definition show_nat (n : nat) : jsstring :=
  lit (DecimalString.NilZero.string_of_uint (Nat.to_uint n)).

(* ================================================================== *)
(** * JavaScript values and exceptions *)

(** What [JSON.parse] and [req.json()] produce, plus [undefined], which
    property access adds.  A number [VNumber m e] is the decimal
    [m * 10^e] of the JSON text. *)
Inductive value : Type :=
| VUndefined
| VNull
| VBool (b : bool)
| VNumber (m e : Z)
| VString (s : jsstring)
| VArray (items : list value)
| VObject (fields : list (jsstring * value)).

Inductive exn : Type :=
| Error (message : jsstring)
| TypeError
| SyntaxError
| Rejected (tag : N).

Inductive result (A : Type) : Type :=
| Ok (a : A)
| Throw (e : exn).
Arguments Ok {A} a.
Arguments Throw {A} e.

Definition bind {A B} (r : result A) (k : A -> result B) : result B :=
  match r with
  | Ok a => k a
  | Throw e => Throw e
  end.

Notation "x <- c ;; k" := (bind c (fun x => k))
  (at level 61, c at next level, right associativity).

Fixpoint mapM {A B} (f : A -> result B) (l : list A) : result (list B) :=
  match l with
  | [] => Ok []
  | a :: l' => b <- f a ;; bs <- mapM f l' ;; Ok (b :: bs)
  end.

(** [arr.map((x, index) => ...)] with a callback that may throw. *)
Fixpoint mapM_index {A B} (f : A -> nat -> result B) (i : nat) (l : list A)
  : result (list B) :=
  match l with
  | [] => Ok []
  | a :: l' => b <- f a i ;; bs <- mapM_index f (S i) l' ;; Ok (b :: bs)
  end.

(** The double nearest to [m * 10^e] is zero: [m] is zero, or the decimal
    lies within half of the least subnormal, [2^-1075], of zero (the tie
    rounds to even, that is to zero). *)
Definition number_is_zero (m e : Z) : bool :=
  (Z.eqb m 0
   || (Z.ltb e 0 && Z.leb (Z.abs m * 2 ^ 1075) (10 ^ (- e))))%Z.

(** ToBoolean *)
Definition truthy (v : value) : bool :=
  match v with
  | VUndefined | VNull => false
  | VBool b => b
  | VNumber m e => negb (number_is_zero m e)
  | VString s => match s with [] => false | _ => true end
  | VArray _ | VObject _ => true
  end.

(** [a || b] *)
Definition js_or (a b : value) : value := if truthy a then a else b.

Inductive jstype := TUndefined | TObject | TBoolean | TNumber | TString.

(** [typeof v] *)
Definition typeof (v : value) : jstype :=
  match v with
  | VUndefined => TUndefined
  | VNull | VArray _ | VObject _ => TObject
  | VBool _ => TBoolean
  | VNumber _ _ => TNumber
  | VString _ => TString
  end.

(** Own property of a parsed object: the last binding of a repeated key is
    the one [JSON.parse] keeps. *)
Fixpoint lookup_last (k : jsstring) (fields : list (jsstring * value))
  : option value :=
  match fields with
  | [] => None
  | (k', v) :: rest =>
      match lookup_last k rest with
      | Some w => Some w
      | None => if str_eqb k k' then Some v else None
      end
  end.

(** [v.name] for one of the names the source reads ([messages], [role],
    [content], [choices], [delta]): none of them is a property of a
    prototype, so only parsed objects have it.  On [null] and [undefined]
    the access throws. *)
Definition get_prop (v : value) (name : jsstring) : result value :=
  match v with
  | VUndefined | VNull => Throw TypeError
  | VObject fields =>
      Ok (match lookup_last name fields with Some w => w | None => VUndefined end)
  | _ => Ok VUndefined
  end.

(** [v?.name] *)
Definition get_prop_opt (v : value) (name : jsstring) : value :=
  match v with
  | VObject fields =>
      match lookup_last name fields with Some w => w | None => VUndefined end
  | _ => VUndefined
  end.

(** [v?.[0]]: the first element of an array, the first unit of a string,
    the property ["0"] of an object. *)
Definition get_index0_opt (v : value) : value :=
  match v with
  | VArray (x :: _) => x
  | VString (c :: _) => VString [c]
  | VObject fields =>
      match lookup_last (lit "0") fields with Some w => w | None => VUndefined end
  | _ => VUndefined
  end.

(* ================================================================== *)
(** * The platform *)

(** The built-ins of the runtime that the two files call.  The route and the
    page are defined over any platform; [reference_platform] below gives
    executable models. *)
Record Platform : Type := {
  (** [s.normalize('NFKD')] *)
  normalize_NFKD : jsstring -> jsstring;
  (** [JSON.parse(s)] *)
  JSON_parse : jsstring -> result value;
  (** [new TextEncoder().encode(s)] *)
  encode : jsstring -> bytes;
  (** [new TextDecoder('utf-8', { fatal: true })] and its
      [decode(chunk, { stream: true })], which leaves a new decoder state
      also when it throws *)
  decoder : Type;
  new_decoder : decoder;
  decode_stream : decoder -> bytes -> result jsstring * decoder;
  (** [new TextDecoder().decode(chunk)]: replacement mode, nothing kept
      between calls *)
  decode : bytes -> jsstring
}.

(** ** UTF-8, after the Encoding Standard *)

Record utf8_state : Type := {
  u_cp : N; u_needed : N; u_seen : N; u_lower : N; u_upper : N
}.

Definition utf8_start : utf8_state :=
  {| u_cp := 0; u_needed := 0; u_seen := 0; u_lower := 0x80; u_upper := 0xBF |}.

Inductive utf8_step_result : Type :=
| SContinue (st : utf8_state)
| SEmit (cp : N)
| SError (restore : bool).

Definition in_range (lo hi b : N) : bool := N.leb lo b && N.leb b hi.

(** The handler of the UTF-8 decoder for one byte. *)
Definition utf8_step (st : utf8_state) (b : N) : utf8_step_result :=
  if N.eqb (u_needed st) 0 then
    if in_range 0x00 0x7F b then SEmit b
    else if in_range 0xC2 0xDF b then
      SContinue {| u_cp := N.land b 0x1F; u_needed := 1; u_seen := 0;
                   u_lower := 0x80; u_upper := 0xBF |}
    else if in_range 0xE0 0xEF b then
      SContinue {| u_cp := N.land b 0xF; u_needed := 2; u_seen := 0;
                   u_lower := if N.eqb b 0xE0 then 0xA0 else 0x80;
                   u_upper := if N.eqb b 0xED then 0x9F else 0xBF |}
    else if in_range 0xF0 0xF4 b then
      SContinue {| u_cp := N.land b 0x7; u_needed := 3; u_seen := 0;
                   u_lower := if N.eqb b 0xF0 then 0x90 else 0x80;
                   u_upper := if N.eqb b 0xF4 then 0x8F else 0xBF |}
    else SError false
  else if negb (in_range (u_lower st) (u_upper st) b) then SError true
  else
    let cp := N.lor (N.shiftl (u_cp st) 6) (N.land b 0x3F) in
    let seen := u_seen st + 1 in
    if N.eqb seen (u_needed st) then SEmit cp
    else SContinue {| u_cp := cp; u_needed := u_needed st; u_seen := seen;
                      u_lower := 0x80; u_upper := 0xBF |}.

(** A scalar value as UTF-16 code units. *)
Definition utf16_of (cp : N) : jsstring :=
  if N.ltb cp 0x10000 then [cp]
  else let c := cp - 0x10000 in
       [0xD800 + N.shiftr c 10; 0xDC00 + N.land c 0x3FF].

(** Serialising decoded scalar values: the first one of the stream is
    dropped when it is the byte order mark. *)
Definition serialize (bom_seen : bool) (cps : list N) : jsstring * bool :=
  match cps with
  | [] => ([], bom_seen)
  | c :: rest =>
      if negb bom_seen && N.eqb c 0xFEFF
      then (flat_map utf16_of rest, true)
      else (flat_map utf16_of cps, true)
  end.

(** Fatal mode over the unread bytes [q]: the scalar values read, or the
    throw together with the bytes left unread. *)
Fixpoint utf8_run_fatal (st : utf8_state) (q : bytes) (out : list N)
  : option (list N) * utf8_state * bytes :=
  match q with
  | [] => (Some (rev out), st, [])
  | b :: q' =>
      match utf8_step st b with
      | SContinue st' => utf8_run_fatal st' q' out
      | SEmit cp => utf8_run_fatal utf8_start q' (cp :: out)
      | SError restore =>
          (None, utf8_start, if restore then b :: q' else q')
      end
  end.

Record stream_decoder : Type := {
  sd_state : utf8_state; sd_queue : bytes; sd_bom_seen : bool
}.

Definition stream_decoder_new : stream_decoder :=
  {| sd_state := utf8_start; sd_queue := []; sd_bom_seen := false |}.

Definition stream_decode (d : stream_decoder) (chunk : bytes)
  : result jsstring * stream_decoder :=
  match utf8_run_fatal (sd_state d) (sd_queue d ++ chunk) [] with
  | (Some cps, st, q) =>
      let (text, seen) := serialize (sd_bom_seen d) cps in
      (Ok text, {| sd_state := st; sd_queue := q; sd_bom_seen := seen |})
  | (None, st, q) =>
      (Throw TypeError,
       {| sd_state := st; sd_queue := q; sd_bom_seen := sd_bom_seen d |})
  end.

(** Replacement mode, flushing at the end of the chunk. *)
Fixpoint utf8_run_lossy (st : utf8_state) (q : bytes) : list N :=
  match q with
  | [] => if N.eqb (u_needed st) 0 then [] else [0xFFFD]
  | b :: q' =>
      match utf8_step st b with
      | SContinue st' => utf8_run_lossy st' q'
      | SEmit cp => cp :: utf8_run_lossy utf8_start q'
      | SError false => 0xFFFD :: utf8_run_lossy utf8_start q'
      | SError true =>
          0xFFFD ::
          match utf8_step utf8_start b with
          | SContinue st' => utf8_run_lossy st' q'
          | SEmit cp => cp :: utf8_run_lossy utf8_start q'
          | SError _ => 0xFFFD :: utf8_run_lossy utf8_start q'
          end
      end
  end.

Definition utf8_decode_lossy (chunk : bytes) : jsstring :=
  fst (serialize false (utf8_run_lossy utf8_start chunk)).

Definition is_high_surrogate (c : N) : bool := in_range 0xD800 0xDBFF c.
Definition is_low_surrogate (c : N) : bool := in_range 0xDC00 0xDFFF c.

Definition utf8_of (cp : N) : bytes :=
  if N.ltb cp 0x80 then [cp]
  else if N.ltb cp 0x800 then
    [N.lor 0xC0 (N.shiftr cp 6); N.lor 0x80 (N.land cp 0x3F)]
  else if N.ltb cp 0x10000 then
    [N.lor 0xE0 (N.shiftr cp 12);
     N.lor 0x80 (N.land (N.shiftr cp 6) 0x3F);
     N.lor 0x80 (N.land cp 0x3F)]
  else
    [N.lor 0xF0 (N.shiftr cp 18);
     N.lor 0x80 (N.land (N.shiftr cp 12) 0x3F);
     N.lor 0x80 (N.land (N.shiftr cp 6) 0x3F);
     N.lor 0x80 (N.land cp 0x3F)].

(** [TextEncoder.encode]: a surrogate without its partner becomes U+FFFD. *)
Fixpoint utf8_encode (s : jsstring) : bytes :=
  match s with
  | [] => []
  | c :: s' =>
      if is_high_surrogate c then
        match s' with
        | lo :: s'' =>
            if is_low_surrogate lo
            then utf8_of (0x10000 + N.shiftl (c - 0xD800) 10 + (lo - 0xDC00))
                 ++ utf8_encode s''
            else utf8_of 0xFFFD ++ utf8_encode s'
        | [] => utf8_of 0xFFFD
        end
      else if is_low_surrogate c then utf8_of 0xFFFD ++ utf8_encode s'
      else utf8_of c ++ utf8_encode s'
  end.

(** ** JSON texts *)

Definition is_json_ws (c : codeunit) : bool :=
  N.eqb c 9 || N.eqb c 10 || N.eqb c 13 || N.eqb c 32.

Fixpoint skip_ws (s : jsstring) : jsstring :=
  match s with
  | c :: s' => if is_json_ws c then skip_ws s' else s
  | [] => []
  end.

Definition is_digit (c : codeunit) : bool := in_range 48 57 c.

Definition hex_digit (c : codeunit) : option N :=
  if in_range 48 57 c then Some (c - 48)
  else if in_range 65 70 c then Some (c - 55)
  else if in_range 97 102 c then Some (c - 87)
  else None.

Definition hex4 (a b c d : codeunit) : option N :=
  match hex_digit a, hex_digit b, hex_digit c, hex_digit d with
  | Some x, Some y, Some z, Some w => Some (((x * 16 + y) * 16 + z) * 16 + w)
  | _, _, _, _ => None
  end.

(** The unit a one-letter escape stands for. *)
Definition simple_escape (c : codeunit) : option codeunit :=
  if N.eqb c 34 then Some 34          (* quote *)
  else if N.eqb c 92 then Some 92     (* backslash *)
  else if N.eqb c 47 then Some 47     (* solidus *)
  else if N.eqb c 98 then Some 8      (* b *)
  else if N.eqb c 102 then Some 12    (* f *)
  else if N.eqb c 110 then Some 10    (* n *)
  else if N.eqb c 114 then Some 13    (* r *)
  else if N.eqb c 116 then Some 9     (* t *)
  else None.

(** The rest of a string after its opening quote. *)
Fixpoint parse_string_body (s : jsstring) (acc : jsstring)
  : option (jsstring * jsstring) :=
  match s with
  | [] => None
  | c :: rest =>
      if N.eqb c 34 then Some (rev acc, rest)
      else if N.eqb c 92 then
        match rest with
        | [] => None
        | e :: rest' =>
            if N.eqb e 117 then
              match rest' with
              | h1 :: h2 :: h3 :: h4 :: rest'' =>
                  match hex4 h1 h2 h3 h4 with
                  | Some u => parse_string_body rest'' (u :: acc)
                  | None => None
                  end
              | _ => None
              end
            else
              match simple_escape e with
              | Some u => parse_string_body rest' (u :: acc)
              | None => None
              end
        end
      else if N.ltb c 32 then None
      else parse_string_body rest (c :: acc)
  end.

(** A run of digits: their value, how many, and the rest. *)
Fixpoint parse_digits (s : jsstring) (acc : Z) (n : Z) : Z * Z * jsstring :=
  match s with
  | c :: s' =>
      if is_digit c
      then parse_digits s' (acc * 10 + Z.of_N (c - 48))%Z (n + 1)%Z
      else (acc, n, s)
  | [] => (acc, n, [])
  end.

(** [-? int frac? exp?], read as mantissa and decimal exponent. *)
Definition parse_number (s : jsstring) : option (value * jsstring) :=
  let (neg, s1) :=
    match s with
    | c :: s' => if N.eqb c 45 then (true, s') else (false, s)
    | [] => (false, s)
    end in
  match s1 with
  | [] => None
  | c :: s1' =>
      if negb (is_digit c) then None
      else
        let '(int, s2) :=
          if N.eqb c 48 then (0%Z, s1')
          else let '(v, _, r) := parse_digits s1 0%Z 0%Z in (v, r) in
        let frac :=
          match s2 with
          | d :: s2' =>
              if N.eqb d 46 then
                let '(v, n, r) := parse_digits s2' int 0%Z in
                if Z.eqb n 0 then None else Some (v, n, r)
              else Some (int, 0%Z, s2)
          | [] => Some (int, 0%Z, s2)
          end in
        match frac with
        | None => None
        | Some (m, fn, s3) =>
            let ex :=
              match s3 with
              | e :: s3' =>
                  if N.eqb e 101 || N.eqb e 69 then
                    let (eneg, s4) :=
                      match s3' with
                      | sg :: s4' =>
                          if N.eqb sg 45 then (true, s4')
                          else if N.eqb sg 43 then (false, s4')
                          else (false, s3')
                      | [] => (false, s3')
                      end in
                    let '(v, n, r) := parse_digits s4 0%Z 0%Z in
                    if Z.eqb n 0 then None
                    else Some ((if eneg then - v else v)%Z, r)
                  else Some (0%Z, s3)
              | [] => Some (0%Z, s3)
              end in
            match ex with
            | None => None
            | Some (e, s5) =>
                Some (VNumber (if neg then - m else m)%Z (e - fn)%Z, s5)
            end
        end
  end.

Definition expect (c : codeunit) (s : jsstring) : option jsstring :=
  match s with
  | x :: s' => if N.eqb x c then Some s' else None
  | [] => None
  end.

Fixpoint parse_value (fuel : nat) (s : jsstring) {struct fuel}
  : option (value * jsstring) :=
  match fuel with
  | O => None
  | S fuel' =>
      match skip_ws s with
      | [] => None
      | c :: rest =>
          if N.eqb c 123 then                       (* object *)
            match skip_ws rest with
            | x :: rest' =>
                if N.eqb x 125 then Some (VObject [], rest')
                else parse_members fuel' rest []
            | [] => None
            end
          else if N.eqb c 91 then                   (* array *)
            match skip_ws rest with
            | x :: rest' =>
                if N.eqb x 93 then Some (VArray [], rest')
                else parse_elements fuel' rest []
            | [] => None
            end
          else if N.eqb c 34 then
            match parse_string_body rest [] with
            | Some (str, r) => Some (VString str, r)
            | None => None
            end
          else if startsWith (lit "true") (c :: rest)
          then Some (VBool true, skipn 4 (c :: rest))
          else if startsWith (lit "false") (c :: rest)
          then Some (VBool false, skipn 5 (c :: rest))
          else if startsWith (lit "null") (c :: rest)
          then Some (VNull, skipn 4 (c :: rest))
          else parse_number (c :: rest)
      end
  end

with parse_elements (fuel : nat) (s : jsstring) (acc : list value)
  {struct fuel} : option (value * jsstring) :=
  match fuel with
  | O => None
  | S fuel' =>
      match parse_value fuel' s with
      | None => None
      | Some (v, r) =>
          match skip_ws r with
          | c :: r' =>
              if N.eqb c 44 then parse_elements fuel' r' (v :: acc)
              else if N.eqb c 93 then Some (VArray (rev (v :: acc)), r')
              else None
          | [] => None
          end
      end
  end

with parse_members (fuel : nat) (s : jsstring)
  (acc : list (jsstring * value)) {struct fuel}
  : option (value * jsstring) :=
  match fuel with
  | O => None
  | S fuel' =>
      match expect 34 (skip_ws s) with
      | None => None
      | Some s1 =>
          match parse_string_body s1 [] with
          | None => None
          | Some (k, s2) =>
              match expect 58 (skip_ws s2) with
              | None => None
              | Some s3 =>
                  match parse_value fuel' s3 with
                  | None => None
                  | Some (v, r) =>
                      match skip_ws r with
                      | c :: r' =>
                          if N.eqb c 44
                          then parse_members fuel' r' ((k, v) :: acc)
                          else if N.eqb c 125
                          then Some (VObject (rev ((k, v) :: acc)), r')
                          else None
                      | [] => None
                      end
                  end
              end
          end
      end
  end.

(** [JSON.parse]: one value, white space around it, nothing else. *)
Definition json_parse (s : jsstring) : result value :=
  match parse_value (2 * List.length s + 2) s with
  | Some (v, rest) =>
      match skip_ws rest with
      | [] => Ok v
      | _ :: _ => Throw SyntaxError
      end
  | None => Throw SyntaxError
  end.

(** ** Compatibility decomposition, in part

    The decompositions of a few code points, every other unit kept: this
    agrees with NFKD on strings made of ASCII and of the mapped code points
    that follow no combining mark. *)
Definition nfkd_unit (c : codeunit) : jsstring :=
  if N.eqb c 0x2026 then [46; 46; 46]          (* HORIZONTAL ELLIPSIS *)
  else if N.eqb c 0x00A0 then [32]             (* NO-BREAK SPACE *)
  else if N.eqb c 0x00E9 then [101; 0x0301]    (* e with acute *)
  else if N.eqb c 0xFB01 then [102; 105]       (* LATIN SMALL LIGATURE FI *)
  else [c].

Definition nfkd_fragment (s : jsstring) : jsstring := flat_map nfkd_unit s.

Definition reference_platform : Platform := {|
  normalize_NFKD := nfkd_fragment;
  JSON_parse := json_parse;
  encode := utf8_encode;
  decoder := stream_decoder;
  new_decoder := stream_decoder_new;
  decode_stream := stream_decode;
  decode := utf8_decode_lossy
|}.

(* ================================================================== *)
(** * route.ts *)

Inductive Role : Type := user | assistant | system.

Record ChatMessage : Type := { role : Role; content : jsstring }.

Definition role_eqb (a b : Role) : bool :=
  match a, b with
  | user, user | assistant, assistant | system, system => true
  | _, _ => false
  end.

Definition role_name (r : Role) : jsstring :=
  match r with
  | user => lit "user"
  | assistant => lit "assistant"
  | system => lit "system"
  end.

(** [['user', 'assistant', 'system'].includes(s)], with the role found. *)
Definition role_of (s : jsstring) : option Role :=
  if str_eqb s (lit "user") then Some user
  else if str_eqb s (lit "assistant") then Some assistant
  else if str_eqb s (lit "system") then Some system
  else None.

(** The table of [sanitizeContent], in the order [Object.entries] lists
    it. *)
Definition replacements : list (codeunit * jsstring) :=
  [ (0x201C, [34]);            (* left double quote *)
    (0x201D, [34]);            (* right double quote *)
    (0x2018, [39]);            (* left single quote *)
    (0x2019, [39]);            (* right single quote *)
    (0x2014, [45]);            (* em dash *)
    (0x2013, [45]);            (* en dash *)
    (0x2026, [46; 46; 46]) ].  (* ellipsis *)

Definition apply_replacements (s : jsstring) : jsstring :=
  fold_left (fun acc ft => replaceAll (fst ft) (snd ft) acc) replacements s.

(** What one attempt of [fetch] comes to: a rejection, or a response with
    its status and body. *)
Record Upstream : Type := {
  chunks : list bytes;          (* what [reader.read()] delivers, in order *)
  read_error : option exn       (* then [done], or a rejected read *)
}.

Record Response : Type := { status : N; res_body : option Upstream }.

Inductive fetch_outcome : Type :=
| FetchRejects (e : exn)
| FetchResponds (r : Response).

(** [response.ok] *)
Definition ok (r : Response) : bool := in_range 200 299 (status r).

Record RequestInit : Type := {
  method : jsstring;
  headers : list (jsstring * jsstring);
  body : value                  (* the object that is stringified *)
}.

(** The network seen by [fetchWithRetries]: how many requests were made and
    the timers that were awaited, oldest first. *)
Record Net : Type := { attempts : nat; sleeps : list N }.

Inductive stream_status : Type :=
| Closed
| Errored (e : exn).

Section Route.

Variable P : Platform.

(** [sanitizeContent], lines 10-38.  The parameter is declared a string;
    the call of line 203 passes whatever the JSON held, and then
    [content.replaceAll] is missing and the call throws. *)
Definition sanitizeContent (content : value) : result jsstring :=
  if negb (truthy content) then Ok []
  else
    match content with
    | VString s =>
        let s := normalize_NFKD P s in
        let s := apply_replacements s in
        Ok (strip_non_ascii s)
    | _ => Throw TypeError
    end.

(** The body of the [try] of [fetchWithRetries]. *)
Definition try_fetch (o : fetch_outcome) : result Response :=
  match o with
  | FetchRejects e => Throw e
  | FetchResponds r =>
      if negb (ok r)
      then Throw (Error (lit "HTTP error! status: "
                         ++ show_nat (N.to_nat (status r))))
      else Ok r
  end.

(** [fetchWithRetries], lines 41-51.  [fetch n url options] is the outcome
    of the request made when [n] requests were made before it.  [retries]
    counts down to the [retries === 0] test from the default 3, the only
    value it is called with. *)
Fixpoint fetchWithRetries
  (fetch : nat -> jsstring -> RequestInit -> fetch_outcome)
  (url : jsstring) (options : RequestInit) (retries : nat) (delay : N)
  (w : Net) : result Response * Net :=
  let w1 := {| attempts := S (attempts w); sleeps := sleeps w |} in
  match try_fetch (fetch (attempts w) url options) with
  | Ok response => (Ok response, w1)
  | Throw error =>
      match retries with
      | O => (Throw error, w1)
      | S retries' =>
          fetchWithRetries fetch url options retries' (delay * 2)
            {| attempts := attempts w1; sleeps := sleeps w1 ++ [delay] |}
      end
  end.

Definition default_retries : nat := 3.
Definition default_delay : N := 1000.

Definition is_object (v : value) : bool :=
  match typeof v with TObject => true | _ => false end.

Definition is_string (v : value) : bool :=
  match typeof v with TString => true | _ => false end.

Definition invalid_message (index : nat) (what : string) : exn :=
  Error (lit "Invalid message at index " ++ show_nat index ++ lit what).

(** The callback of [rawMessages.map], lines 86-103. *)
Definition validate_message (msg : value) (index : nat)
  : result ChatMessage :=
  if negb (truthy msg) || negb (is_object msg)
  then Throw (invalid_message index ": expected an object")
  else
    r <- get_prop msg (lit "role") ;;
    if negb (is_string r) || negb (truthy r)
    then Throw (invalid_message index ": role must be a non-empty string")
    else
      c <- get_prop msg (lit "content") ;;
      if negb (is_string c) || negb (truthy c)
      then Throw (invalid_message index
                    ": content must be a non-empty string")
      else
        match r, c with
        | VString rs, VString cs =>
            match role_of rs with
            | None =>
                Throw (invalid_message index
                  ": role must be 'user', 'assistant', or 'system'")
            | Some ro => Ok {| role := ro; content := trim cs |}
            end
        | _, _ => Throw TypeError
        end.

(** Lines 75-107: from the parsed body to the validated messages. *)
Definition validate_body (body : value) : result (list ChatMessage) :=
  if negb (truthy body) || negb (is_object body)
  then Throw (Error (lit "Invalid request body: expected an object"))
  else
    raw <- get_prop body (lit "messages") ;;
    match raw with
    | VArray rawMessages =>
        messages <- mapM_index validate_message 0 rawMessages ;;
        match messages with
        | [] => Throw (Error (lit "No valid messages provided"))
        | _ :: _ => Ok messages
        end
    | _ =>
        Throw (Error (lit "Invalid request body: messages must be an array"))
    end.

(** Line 110: [messages[messages.length - 1]]; reading [.content] of the
    [undefined] an empty array gives would throw. *)
Definition lastUserMessage (messages : list ChatMessage)
  : result ChatMessage :=
  match rev messages with
  | m :: _ => Ok m
  | [] => Throw TypeError
  end.

(** The first argument of [tvly.search], line 114. *)
Definition search_query (messages : list ChatMessage) : result jsstring :=
  m <- lastUserMessage messages ;; Ok (content m).

Definition system_prompt : jsstring :=
  lit "You are a highly intelligent and helpful AI assistant. Use the following search results to help answer the user's question, but also include your own knowledge. Search results:"
  ++ [LF].

(** Lines 120-123; [results] is [JSON.stringify(searchResponse, null, 2)]. *)
Definition systemMessage (results : jsstring) : ChatMessage :=
  {| role := system; content := system_prompt ++ results |}.

(** Lines 125-130. *)
Definition inject (sys : ChatMessage) (messages : list ChatMessage)
  : list ChatMessage :=
  if negb (existsb (fun msg => role_eqb (role msg) system) messages)
  then sys :: messages                      (* messages.unshift(sys) *)
  else match messages with                  (* messages[0] = sys *)
       | [] => [sys]
       | _ :: rest => sys :: rest
       end.

(** One entry of [payload.messages], lines 137-140. *)
Definition payload_message (msg : ChatMessage) : result value :=
  c <- sanitizeContent (VString (content msg)) ;;
  Ok (VObject [ (lit "role", VString (role_name (role msg)));
                (lit "content", VString c) ]).

(** Lines 135-145. *)
Definition payload (messages : list ChatMessage) : result value :=
  ms <- mapM payload_message messages ;;
  Ok (VObject [ (lit "model", VString (lit "deepseek-ai/DeepSeek-V3"));
                (lit "messages", VArray ms);
                (lit "temperature", VNumber 7 (-1));
                (lit "top_p", VNumber 95 (-2));
                (lit "top_k", VNumber 50 0);
                (lit "stream", VBool true) ]).

(** ** The stream transformer, lines 157-222 *)

Definition DONE : jsstring := lit "[DONE]".

(** The template [`data: ${payload}\n\n`]. *)
Definition sse (payload : jsstring) : jsstring :=
  lit "data: " ++ payload ++ [LF; LF].

(** Lines 202-203: the delta text of the parsed [data], sanitized.  It
    throws when [data] is [null] and when the delta is neither falsy nor a
    string. *)
Definition sanitized_delta (data : value) : result jsstring :=
  choices <- get_prop data (lit "choices") ;;
  let content :=
    js_or (get_prop_opt (get_prop_opt (get_index0_opt choices) (lit "delta"))
                        (lit "content"))
          (VString []) in
  sanitizeContent content.

(** Lines 200-211: the [sseMessage] built for a payload other than
    [[DONE]], if any; every throw inside the [try] is caught and logged. *)
Definition delta_messages (jsonData : jsstring) : list jsstring :=
  match (data <- JSON_parse P jsonData ;; sanitized_delta data) with
  | Ok content =>
      match content with
      | [] => []
      | _ :: _ => [sse content]
      end
  | Throw _ => []
  end.

(** The body of [for (const line of lines)], lines 184-211: the texts it
    hands to [encoder.encode], none or one. *)
Definition line_messages (line : jsstring) : list jsstring :=
  if str_eqb (trim line) [] then []
  else if negb (startsWith (lit "data: ") line) then []
  else
    let jsonData := slice 6 line in
    if str_eqb jsonData DONE then [sse DONE]
    else delta_messages jsonData.

(** The chunks one line enqueues. *)
Definition process_line (line : jsstring) : list bytes :=
  map (encode P) (line_messages line).

(** Lines 172-178: decode the chunk, and once more without its first byte
    when that throws. *)
Definition decode_chunk (d : decoder P) (value : bytes)
  : result jsstring * decoder P :=
  match decode_stream P d value with
  | (Ok text, d') => (Ok text, d')
  | (Throw _, d') => decode_stream P d' (tl value)
  end.

(** [lines.pop() || ''] and what is left of [lines]. *)
Definition pop_line (lines : list jsstring) : jsstring * list jsstring :=
  (last lines [], removelast lines).

(** The [while (true)] loop, lines 168-213, over the reads that remain. *)
Fixpoint read_loop (d : decoder P) (buffer : jsstring)
  (reads : list bytes) (failure : option exn) (out : list bytes)
  : list bytes * stream_status :=
  match reads with
  | [] =>
      match failure with
      | None => (out, Closed)
      | Some e => (out, Errored e)
      end
  | value :: reads' =>
      match decode_chunk d value with
      | (Throw e, _) => (out, Errored e)
      | (Ok text, d') =>
          let (buffer', lines) := pop_line (split LF (buffer ++ text)) in
          read_loop d' buffer' reads' failure
                    (out ++ flat_map process_line lines)
      end
  end.

(** [start(controller)]: the chunks enqueued and how the stream ends. *)
Definition transform (upstream : option Upstream)
  : list bytes * stream_status :=
  match upstream with
  | None =>
      ([], Errored (Error (lit "No response body received from Together API")))
  | Some up => read_loop (new_decoder P) [] (chunks up) (read_error up) []
  end.

(** ** POST, lines 53-250 *)

Record Env : Type := {
  TOGETHER_API_KEY : option jsstring;
  TAVILY_API_KEY : option jsstring
}.

Definition unset (key : option jsstring) : bool :=
  match key with
  | None | Some [] => true
  | Some (_ :: _) => false
  end.

Inductive post_result : Type :=
| Streamed (out : list bytes) (st : stream_status)   (* the SSE response *)
| Failed (error : exn).                              (* the 500 envelope *)

Definition together_url : jsstring :=
  lit "https://api.together.xyz/v1/chat/completions".

Definition request_options (apiKey : jsstring) (pl : value) : RequestInit :=
  {| method := lit "POST";
     headers := [ (lit "Authorization", lit "Bearer " ++ apiKey);
                  (lit "Content-Type", lit "application/json") ];
     body := pl |}.

Definition key_text (key : option jsstring) : jsstring :=
  match key with Some k => k | None => [] end.

(** [req_json] is what [await req.json()] comes to; [search q] is the
    stringified answer of the search provider to the query [q], or its
    rejection. *)
Definition POST (env : Env) (req_json : result value)
  (search : jsstring -> result jsstring)
  (fetch : nat -> jsstring -> RequestInit -> fetch_outcome) : post_result :=
  let run : result (list bytes * stream_status) :=
    if unset (TOGETHER_API_KEY env)
    then Throw (Error (lit "TOGETHER_API_KEY is not configured"))
    else if unset (TAVILY_API_KEY env)
    then Throw (Error (lit "TAVILY_API_KEY is not configured"))
    else
      body <- match req_json with
              | Ok b => Ok b
              | Throw _ =>
                  Throw (Error (lit "Failed to parse request body as JSON"))
              end ;;
      messages <- validate_body body ;;
      query <- search_query messages ;;
      results <- search query ;;
      let messages := inject (systemMessage results) messages in
      pl <- payload messages ;;
      response <- fst (fetchWithRetries fetch together_url
                         (request_options (key_text (TOGETHER_API_KEY env)) pl)
                         default_retries default_delay
                         {| attempts := 0; sleeps := [] |}) ;;
      Ok (transform (res_body response)) in
  match run with
  | Ok (out, st) => Streamed out st
  | Throw e => Failed e
  end.

(* ================================================================== *)
(** * page.tsx: the [onResponse] reader *)

(** [s[i]] as the argument of [RegExp.prototype.test]: a missing unit is
    [undefined], which [test] turns into the string ["undefined"]. *)
Definition test_unit (c : option codeunit) : bool :=
  match c with
  | Some u => test_alnum [u]
  | None => test_alnum (lit "undefined")
  end.

(** Lines 36-41. *)
Definition needsSpace (text content : jsstring) : bool :=
  let lastChar := nth_error text (List.length text - 1) in
  let firstChar := nth_error content 0 in
  Nat.ltb 0 (List.length text) && test_unit lastChar && test_unit firstChar.

(** Line 43: [text += (needsSpace ? ' ' : '') + content]. *)
Definition join (text content : jsstring) : jsstring :=
  text ++ (if needsSpace text content then lit " " else []) ++ content.

(** The body of [for (const line of lines)], lines 33-46. *)
Definition consume_line (text line : jsstring) : jsstring :=
  if startsWith (lit "data: ") line then
    let content := slice 6 line in
    if negb (str_eqb content DONE) then join text content else text
  else text.

(** One turn of the [while (true)] loop, lines 26-47. *)
Definition consume_chunk (text : jsstring) (value : bytes) : jsstring :=
  fold_left consume_line (split LF (decode P value)) text.

(** [readStream], from [let text = ''] on: the buffer after the reads. *)
Definition readStream (reads : list bytes) : jsstring :=
  fold_left consume_chunk reads [].

(* ================================================================== *)
(** * Notions the statements use *)

(** The texts the decoder adds to [buffer] over the reads, up to the first
    chunk that throws twice, and that throw. *)
Fixpoint decode_reads (d : decoder P) (reads : list bytes)
  : list jsstring * option exn :=
  match reads with
  | [] => ([], None)
  | value :: reads' =>
      match decode_chunk d value with
      | (Throw e, _) => ([], Some e)
      | (Ok text, d') =>
          let (texts, failure) := decode_reads d' reads' in
          (text :: texts, failure)
      end
  end.

(** The lines of a text that a line feed ends. *)
Definition complete_lines (text : jsstring) : list jsstring :=
  removelast (split LF text).

(** A line whose payload after [data: ] is exactly [[DONE]]. *)
Definition is_done_line (line : jsstring) : bool :=
  str_eqb line (lit "data: [DONE]").

(** A data line with another payload whose sanitized delta text is
    [[DONE]]. *)
Definition is_done_delta (line : jsstring) : bool :=
  startsWith (lit "data: ") line
  && negb (str_eqb (slice 6 line) DONE)
  && match (data <- JSON_parse P (slice 6 line) ;; sanitized_delta data) with
     | Ok content => str_eqb content DONE
     | Throw _ => false
     end.

Definition count_messages (m : jsstring) (l : list jsstring) : nat :=
  List.length (filter (str_eqb m) l).

(** The text the transformer decoded from the reads of [up]. *)
Definition decoded_text (up : Upstream) : jsstring :=
  List.concat (fst (decode_reads (new_decoder P) (chunks up))).

(** How the output stream ends, from how decoding and reading ended. *)
Definition closing (decode_failure read_failure : option exn)
  : stream_status :=
  match decode_failure with
  | Some e => Errored e
  | None =>
      match read_failure with
      | Some e => Errored e
      | None => Closed
      end
  end.

End Route.

(** Every unit is 7-bit ASCII. *)
Definition pure_ascii (s : jsstring) : Prop := Forall (fun c => c <= 0x7F) s.

Definition count_system (messages : list ChatMessage) : nat :=
  List.length (filter (fun msg => role_eqb (role msg) system) messages).

(** The content of the latest message whose role is [user]. *)
Definition latest_user_content (messages : list ChatMessage)
  : option jsstring :=
  match filter (fun msg => role_eqb (role msg) user) (rev messages) with
  | m :: _ => Some (content m)
  | [] => None
  end.

Definition total_sleep (w : Net) : N := fold_right N.add 0 (sleeps w).

Definition net0 : Net := {| attempts := 0; sleeps := [] |}.

(** The requests of the examples. *)
Definition no_options : RequestInit :=
  {| method := lit "POST"; headers := []; body := VNull |}.

Definition response_200 : Response :=
  {| status := 200; res_body := Some {| chunks := []; read_error := None |} |}.

Definition response_503 : Response :=
  {| status := 503; res_body := None |}.

(** Two failures, one by the network and one by status, then success. *)
Definition flaky_fetch (n : nat) (_ : jsstring) (_ : RequestInit)
  : fetch_outcome :=
  match n with
  | 0%nat => FetchRejects (Rejected 7)
  | 1%nat => FetchResponds response_503
  | _ => FetchResponds response_200
  end.

Definition failing_fetch (n : nat) (_ : jsstring) (_ : RequestInit)
  : fetch_outcome :=
  FetchRejects (Rejected (N.of_nat n)).

(** Lines of the examples: a delta of three letters, one of a single
    ideograph, an empty one, and an object without choices. *)
Definition line_Hel : jsstring :=
  jq "data: {'choices':[{'delta':{'content':'Hel'}}]}".

Definition line_ideograph : jsstring :=
  jq "data: {'choices':[{'delta':{'content':'\u4e2d'}}]}".

Definition line_empty_delta : jsstring :=
  jq "data: {'choices':[{'delta':{'content':''}}]}".

Definition line_no_choices : jsstring := jq "data: {'id':7}".

(** The upstream of the end-to-end example, one event in each read. *)
Definition hello_events : list jsstring :=
  [ jq "data: {'choices':[{'delta':{'content':'Hel'}}]}" ++ [LF; LF];
    jq "data: {'choices':[{'delta':{'content':'lo'}}]}" ++ [LF; LF];
    lit "data: [DONE]" ++ [LF; LF] ].

Definition hello_upstream : Upstream :=
  {| chunks := map utf8_encode hello_events; read_error := None |}.

(** The same bytes in two reads, cut after [k] bytes. *)
Definition hello_cut (k : nat) : Upstream :=
  let all := utf8_encode (List.concat hello_events) in
  {| chunks := [firstn k all; skipn k all]; read_error := None |}.

(** An upstream that ends after one delta, without [[DONE]]. *)
Definition no_done_upstream : Upstream :=
  {| chunks := [utf8_encode (line_Hel ++ [LF; LF])]; read_error := None |}.

(** An upstream that sends [[DONE]] twice. *)
Definition twice_done_upstream : Upstream :=
  {| chunks := [ utf8_encode (lit "data: [DONE]" ++ [LF; LF]
                               ++ lit "data: [DONE]" ++ [LF; LF]) ];
     read_error := None |}.

(** An upstream without a [[DONE]] payload whose delta text is [[DONE]]. *)
Definition done_delta_upstream : Upstream :=
  {| chunks := [ utf8_encode
                   (jq "data: {'choices':[{'delta':{'content':'[DONE]'}}]}"
                    ++ [LF; LF]) ];
     read_error := None |}.

(** A conversation whose system message is not the first one. *)
Definition late_system : list ChatMessage :=
  [ {| role := user; content := lit "hi" |};
    {| role := system; content := lit "be brief" |} ].

(** A conversation that ends with an assistant message. *)
Definition assistant_last : list ChatMessage :=
  [ {| role := user; content := lit "q" |};
    {| role := assistant; content := lit "a" |} ].

(** A read that ends right after the prefix of an event. *)
Definition cut_after_prefix : bytes :=
  utf8_encode (lit "data: abc" ++ [LF; LF] ++ lit "data: ").

(** A request body whose only message has a blank content. *)
Definition blank_body : value :=
  VObject [ (lit "messages",
             VArray [ VObject [ (lit "role", VString (lit "user"));
                                (lit "content", VString (lit " ")) ] ]) ].

(** ** Notions for the further properties *)

Definition has_LF (s : jsstring) : bool := existsb (fun c => N.eqb c LF) s.

(** The text made of the lines [ls], each ended by a line feed. *)
Definition unlines (ls : list jsstring) : jsstring :=
  flat_map (fun l => l ++ [LF]) ls.

(** The delays of [n] successive waits that start at [delay] and double. *)
Definition backoff (delay : N) (n : nat) : list N :=
  map (fun i => delay * 2 ^ N.of_nat i) (seq 0 n).

(** What the table and the strip of [sanitizeContent] make of one unit. *)
Definition sanitize_unit (c : codeunit) : jsstring :=
  if N.eqb c 0x201C || N.eqb c 0x201D then [34]
  else if N.eqb c 0x2018 || N.eqb c 0x2019 then [39]
  else if N.eqb c 0x2014 || N.eqb c 0x2013 then [45]
  else if N.eqb c 0x2026 then [46; 46; 46]
  else if is_ascii c then [c]
  else [].

(** A text in curly quotes, with an ellipsis and an accent. *)
Definition smart_text : jsstring :=
  [0x201C; 72; 105; 0x2026; 0x00E9; 0x201D].

(** An event whose payload holds a line feed. *)
Definition hello_world_event : jsstring :=
  sse (lit "Hello" ++ [LF] ++ lit "World").


(** An upstream of four lines and an unfinished fifth, in two reads. *)
Definition ragged_upstream : Upstream :=
  {| chunks :=
       [ utf8_encode (line_Hel ++ [LF] ++ lit "event: ping" ++ [LF]
                      ++ lit "data: {'cho");
         utf8_encode (lit "ices" ++ [LF; LF] ++ lit "data: [DONE]") ];
     read_error := None |}.

Definition ragged_lines : list jsstring :=
  [ line_Hel; lit "event: ping"; lit "data: {'choices"; [] ].

(** The raw message [msg] is one that validation turns into [m]. *)
Definition accepts (msg : value) (m : ChatMessage) : Prop :=
  exists fields rs cs,
    msg = VObject fields
    /\ lookup_last (lit "role") fields = Some (VString rs)
    /\ role_of rs = Some (role m)
    /\ lookup_last (lit "content") fields = Some (VString cs)
    /\ cs <> []
    /\ content m = trim cs.

Definition raw_message (r c : string) : value :=
  VObject [ (lit "role", VString (lit r)); (lit "content", VString (lit c)) ].

(** A body whose second message has an unknown role. *)
Definition bot_body : value :=
  VObject [ (lit "messages",
             VArray [ raw_message "user" "hi"; raw_message "bot" "beep" ]) ].

Definition hi_body : value :=
  VObject [ (lit "messages", VArray [ raw_message "user" " hi " ]) ].

Definition both_keys : Env :=
  {| TOGETHER_API_KEY := Some (lit "k1"); TAVILY_API_KEY := Some (lit "k2") |}.

Definition no_search_key : Env :=
  {| TOGETHER_API_KEY := Some (lit "k1"); TAVILY_API_KEY := None |}.

Definition empty_search (_ : jsstring) : result jsstring := Ok (lit "{}").

Definition failing_search (_ : jsstring) : result jsstring :=
  Throw (Rejected 1).

(** A network that answers 200 with the upstream of the example. *)
Definition hello_fetch (_ : nat) (_ : jsstring) (_ : RequestInit)
  : fetch_outcome :=
  FetchResponds {| status := 200; res_body := Some hello_upstream |}.

(* ================================================================== *)
(** * Strings: basic facts *)

Lemma str_eqb_eq (a b : jsstring) : str_eqb a b = true <-> a = b.
Proof.
  revert b; induction a as [|x a IH]; intros [|y b]; simpl;
    try (split; [discriminate | intro H; inversion H]); try tauto.
  rewrite andb_true_iff, N.eqb_eq, IH.
  split; [intros [-> ->]; reflexivity | intro H; inversion H; auto].
Qed.

Lemma str_eqb_refl (a : jsstring) : str_eqb a a = true.
Proof. now apply str_eqb_eq. Qed.

Lemma str_eqb_neq (a b : jsstring) : str_eqb a b = false <-> a <> b.
Proof.
  rewrite <- str_eqb_eq. destruct (str_eqb a b); split; congruence.
Qed.

Lemma is_ascii_le (c : codeunit) : is_ascii c = true <-> c <= 0x7F.
Proof. unfold is_ascii. apply N.leb_le. Qed.

(* ================================================================== *)
(** * sanitizeContent *)

Lemma strip_non_ascii_pure (s : jsstring) : pure_ascii (strip_non_ascii s).
Proof.
  unfold pure_ascii, strip_non_ascii.
  apply Forall_forall; intros c Hc.
  apply filter_In in Hc. now apply is_ascii_le.
Qed.

Lemma strip_non_ascii_fixes (s : jsstring) :
  pure_ascii s -> strip_non_ascii s = s.
Proof.
  unfold pure_ascii, strip_non_ascii.
  induction 1 as [|c s Hc _ IH]; simpl; [reflexivity|].
  apply is_ascii_le in Hc. now rewrite Hc, IH.
Qed.

Lemma replaceAll_fixes (from : codeunit) (to s : jsstring) :
  0x7F < from -> pure_ascii s -> replaceAll from to s = s.
Proof.
  intros Hfrom. unfold pure_ascii, replaceAll.
  induction 1 as [|c s Hc _ IH]; simpl; [reflexivity|].
  assert (N.eqb c from = false) as -> by (apply N.eqb_neq; lia).
  simpl. now rewrite IH.
Qed.

Lemma replacements_above_ascii :
  Forall (fun ft => 0x7F < fst ft) replacements.
Proof. unfold replacements. repeat constructor. Qed.

Lemma apply_replacements_fixes (s : jsstring) :
  pure_ascii s -> apply_replacements s = s.
Proof.
  intros Hs. unfold apply_replacements.
  pose proof replacements_above_ascii as Htable.
  induction Htable as [|[from to] table Hfrom _ IH]; simpl; [reflexivity|].
  now rewrite replaceAll_fixes.
Qed.

Lemma sanitizeContent_string (P : Platform) (s : jsstring) :
  sanitizeContent P (VString s)
  = Ok (match s with
        | [] => []
        | _ :: _ => strip_non_ascii (apply_replacements (normalize_NFKD P s))
        end).
Proof. destruct s; reflexivity. Qed.

Lemma sanitizeContent_pure (P : Platform) (v : value) (out : jsstring) :
  sanitizeContent P v = Ok out -> pure_ascii out.
Proof.
  unfold sanitizeContent.
  destruct (truthy v); simpl.
  - destruct v; try discriminate.
    intros [= <-]. apply strip_non_ascii_pure.
  - intros [= <-]. constructor.
Qed.

(** On a string of ASCII the sanitizer changes nothing, provided the
    normalization leaves ASCII alone. *)
Lemma sanitizeContent_fixes_ascii (P : Platform) (s : jsstring) :
  (forall a, pure_ascii a -> normalize_NFKD P a = a) ->
  pure_ascii s -> sanitizeContent P (VString s) = Ok s.
Proof.
  intros Hnorm Hs. rewrite sanitizeContent_string.
  destruct s as [|c s]; [reflexivity|].
  now rewrite Hnorm, apply_replacements_fixes, strip_non_ascii_fixes.
Qed.

Lemma nfkd_fragment_fixes_ascii (a : jsstring) :
  pure_ascii a -> nfkd_fragment a = a.
Proof.
  unfold pure_ascii, nfkd_fragment.
  induction 1 as [|c s Hc _ IH]; simpl; [reflexivity|].
  rewrite IH. unfold nfkd_unit.
  repeat match goal with
         | |- context [N.eqb c ?k] =>
             replace (N.eqb c k) with false by (symmetry; apply N.eqb_neq; lia)
         end.
  reflexivity.
Qed.

(** C6: sanitizing a sanitized text changes nothing,
    [sanitizeContent(sanitizeContent(x)) = sanitizeContent(x)] for every
    input [x], on a platform whose NFKD normalization leaves ASCII strings
    as they are (which Unicode normalization does). *)
Theorem sanitizeContent_idempotent (P : Platform) (x : value) :
  (forall a, pure_ascii a -> normalize_NFKD P a = a) ->
  (y <- sanitizeContent P x ;; sanitizeContent P (VString y))
  = sanitizeContent P x.
Proof.
  intros Hnorm.
  destruct (sanitizeContent P x) as [y|e] eqn:Hx; simpl; [|reflexivity].
  apply sanitizeContent_fixes_ascii; [exact Hnorm|].
  eapply sanitizeContent_pure; eassumption.
Qed.

(** The same at a text with curly quotes, an ellipsis and an accent. *)
Lemma sanitizeContent_idempotent_witness :
  (forall a, pure_ascii a -> normalize_NFKD reference_platform a = a)
  /\ sanitizeContent reference_platform
       (VString [0x201C; 72; 105; 0x2026; 0x00E9; 0x201D])
     = Ok (jq "'Hi...e'")
  /\ (y <- sanitizeContent reference_platform
             (VString [0x201C; 72; 105; 0x2026; 0x00E9; 0x201D]) ;;
      sanitizeContent reference_platform (VString y))
     = sanitizeContent reference_platform
         (VString [0x201C; 72; 105; 0x2026; 0x00E9; 0x201D]).
Proof.
  split; [exact nfkd_fragment_fixes_ascii|].
  split; [reflexivity|].
  apply (sanitizeContent_idempotent reference_platform
           (VString [0x201C; 72; 105; 0x2026; 0x00E9; 0x201D])).
  exact nfkd_fragment_fixes_ascii.
Defined.

(** C7: [sanitizeContent] returns for every string, and for the [null] or
    [undefined] and the empty string it returns the empty string; whatever
    it returns is pure 7-bit ASCII. *)
Theorem sanitizeContent_total_ascii (P : Platform) :
  (forall s : jsstring,
      exists out, sanitizeContent P (VString s) = Ok out /\ pure_ascii out)
  /\ sanitizeContent P VNull = Ok []
  /\ sanitizeContent P VUndefined = Ok []
  /\ sanitizeContent P (VString []) = Ok [].
Proof.
  split; [|repeat split].
  intros s. rewrite sanitizeContent_string.
  eexists; split; [reflexivity|].
  destruct s; [constructor | apply strip_non_ascii_pure].
Qed.

(* ================================================================== *)
(** * fetchWithRetries *)

Lemma fetchWithRetries_success fetch url options retries delay w r :
  try_fetch (fetch (attempts w) url options) = Ok r ->
  fetchWithRetries fetch url options retries delay w
  = (Ok r, {| attempts := S (attempts w); sleeps := sleeps w |}).
Proof. intros H. destruct retries; simpl; now rewrite H. Qed.

Lemma fetchWithRetries_retry fetch url options retries delay w e :
  try_fetch (fetch (attempts w) url options) = Throw e ->
  fetchWithRetries fetch url options (S retries) delay w
  = fetchWithRetries fetch url options retries (delay * 2)
      {| attempts := S (attempts w); sleeps := sleeps w ++ [delay] |}.
Proof. intros H. simpl. now rewrite H. Qed.

Lemma fetchWithRetries_give_up fetch url options delay w e :
  try_fetch (fetch (attempts w) url options) = Throw e ->
  fetchWithRetries fetch url options 0 delay w
  = (Throw e, {| attempts := S (attempts w); sleeps := sleeps w |}).
Proof. intros H. simpl. now rewrite H. Qed.

(** C8: with the default three retries and 1000 ms first delay, a request
    that fails twice and then succeeds gives that response after timers of
    1000 and 2000 ms (3000 ms asked for in all, the delay doubling); when
    all four attempts fail, the error of the fourth is thrown as it is,
    after exactly four attempts. *)
Theorem fetchWithRetries_default fetch url options :
  (forall e0 e1 r,
      try_fetch (fetch 0%nat url options) = Throw e0 ->
      try_fetch (fetch 1%nat url options) = Throw e1 ->
      try_fetch (fetch 2%nat url options) = Ok r ->
      exists w,
        fetchWithRetries fetch url options default_retries default_delay net0
        = (Ok r, w)
        /\ attempts w = 3%nat
        /\ sleeps w = [1000; 2000]
        /\ 1000 + 2000 <= total_sleep w)
  /\ (forall err : nat -> exn,
         (forall n, (n < 4)%nat ->
                    try_fetch (fetch n url options) = Throw (err n)) ->
         fetchWithRetries fetch url options default_retries default_delay net0
         = (Throw (err 3%nat),
            {| attempts := 4; sleeps := [1000; 2000; 4000] |})).
Proof.
  unfold default_retries, default_delay, net0. split.
  - intros e0 e1 r H0 H1 H2.
    erewrite fetchWithRetries_retry by exact H0.
    erewrite fetchWithRetries_retry by exact H1.
    erewrite fetchWithRetries_success by exact H2.
    eexists; split; [reflexivity|]. simpl.
    repeat split. unfold total_sleep; simpl. lia.
  - intros err Herr.
    erewrite fetchWithRetries_retry by (apply (Herr 0%nat); lia).
    erewrite fetchWithRetries_retry by (apply (Herr 1%nat); lia).
    erewrite fetchWithRetries_retry by (apply (Herr 2%nat); lia).
    erewrite fetchWithRetries_give_up by (apply (Herr 3%nat); lia).
    reflexivity.
Qed.

(** A rejection and a 503 before a 200; and a network that always rejects. *)
Lemma fetchWithRetries_default_witness :
  (exists w,
      fetchWithRetries flaky_fetch together_url no_options
        default_retries default_delay net0 = (Ok response_200, w)
      /\ attempts w = 3%nat
      /\ sleeps w = [1000; 2000]
      /\ 1000 + 2000 <= total_sleep w)
  /\ fetchWithRetries failing_fetch together_url no_options
       default_retries default_delay net0
     = (Throw (Rejected 3),
        {| attempts := 4; sleeps := [1000; 2000; 4000] |}).
Proof.
  split.
  - apply (proj1 (fetchWithRetries_default flaky_fetch together_url no_options)
             (Rejected 7)
             (Error (lit "HTTP error! status: 503"))
             response_200); reflexivity.
  - apply (proj2 (fetchWithRetries_default failing_fetch together_url
                    no_options)
             (fun n => Rejected (N.of_nat n))).
    intros n _. reflexivity.
Defined.

(* ================================================================== *)
(** * The messages sent on: system message and search query *)




(** C2, at a conversation whose system message comes second: the message at
    index 0, the user's, is overwritten, and the old system message stays,
    so two system messages go on. *)
Theorem inject_late_system (results : jsstring) :
  inject (systemMessage results) late_system
  = [ systemMessage results;
      {| role := system; content := lit "be brief" |} ]
  /\ count_system (inject (systemMessage results) late_system) = 2%nat.
Proof. split; reflexivity. Qed.

Lemma search_query_last front m :
  search_query (front ++ [m]) = Ok (content m).
Proof.
  unfold search_query, lastUserMessage.
  rewrite rev_app_distr. reflexivity.
Qed.

(** X16: when the conversation ends with a user message, the query sent to
    the search provider is the content of the latest user message. *)
Lemma search_query_user_last front m :
  role m = user ->
  search_query (front ++ [m]) = Ok (content m)
  /\ latest_user_content (front ++ [m]) = Some (content m).
Proof.
  intros H. split; [apply search_query_last|].
  unfold latest_user_content. rewrite rev_app_distr. simpl. now rewrite H.
Qed.

(** C3, at a conversation that ends with an assistant message: the query is
    that last message, not the latest user message. *)
Theorem search_query_assistant_last :
  search_query assistant_last = Ok (lit "a")
  /\ latest_user_content assistant_last = Some (lit "q").
Proof. split; reflexivity. Qed.

(** C10: the body whose one message has the content [" "] passes validation
    (the test for emptiness comes before the trim), the message is kept
    with the empty content, and the payload sent upstream holds it after
    the system message. *)
Theorem blank_content_reaches_payload (P : Platform) (results : jsstring) :
  validate_body blank_body = Ok [ {| role := user; content := [] |} ]
  /\ exists sys,
       payload P (inject (systemMessage results)
                         [ {| role := user; content := [] |} ])
       = Ok (VObject
               [ (lit "model", VString (lit "deepseek-ai/DeepSeek-V3"));
                 (lit "messages",
                  VArray [ sys;
                           VObject [ (lit "role", VString (lit "user"));
                                     (lit "content", VString []) ] ]);
                 (lit "temperature", VNumber 7 (-1));
                 (lit "top_p", VNumber 95 (-2));
                 (lit "top_k", VNumber 50 0);
                 (lit "stream", VBool true) ]).
Proof.
  split; [reflexivity|].
  unfold payload, inject. simpl.
  eexists. reflexivity.
Qed.

(* ================================================================== *)
(** * The token join of the page *)

Lemma test_unit_some (c : codeunit) : test_unit (Some c) = is_alnum c.
Proof. unfold test_unit, test_alnum. simpl. apply orb_false_r. Qed.

Lemma nth_error_last (text : jsstring) (c : codeunit) :
  nth_error (text ++ [c]) (List.length (text ++ [c]) - 1) = Some c.
Proof.
  rewrite length_app. simpl.
  replace (List.length text + 1 - 1)%nat with (List.length text) by lia.
  rewrite nth_error_app2 by lia. now rewrite Nat.sub_diag.
Qed.

(** X17: for a payload that has a first unit, a space is put in exactly
    when the buffer is not empty, its last unit is a letter or digit and
    the first unit of the payload is one too. *)
Lemma needsSpace_nonempty (text : jsstring) (c : codeunit) (rest : jsstring) :
  needsSpace text (c :: rest)
  = match rev text with
    | [] => false
    | l :: _ => is_alnum l && is_alnum c
    end.
Proof.
  unfold needsSpace.
  destruct (rev text) as [|l before] eqn:E.
  - apply (f_equal (@rev _)) in E. rewrite rev_involutive in E. now subst.
  - apply (f_equal (@rev _)) in E. rewrite rev_involutive in E. simpl in E.
    subst text. rewrite nth_error_last. simpl nth_error.
    rewrite !test_unit_some, length_app. simpl.
    replace (0 <? List.length (rev before) + 1)%nat with true
      by (symmetry; apply Nat.ltb_lt; lia).
    reflexivity.
Qed.

Lemma join_examples :
  join (lit "abc") (lit "def") = lit "abc def"
  /\ join (lit "abc") (lit "!") = lit "abc!"
  /\ join (lit "") (lit "def") = lit "def"
  /\ join (lit "end.") (lit "Next") = lit "end.Next".
Proof. repeat split. Qed.

(** C4, at an empty payload: [content[0]] is [undefined], the test reads it
    as the word "undefined", and a space is added after a buffer that ends
    in a letter or digit.  A read that ends right after [data: ] brings
    such a payload. *)
Theorem join_empty_payload :
  needsSpace (lit "abc") [] = true
  /\ join (lit "abc") [] = lit "abc "
  /\ readStream reference_platform [cut_after_prefix] = lit "abc ".
Proof. repeat split. Qed.

(* ================================================================== *)
(** * Lines across reads *)

Lemma split_nonempty (sep : codeunit) (s : jsstring) : split sep s <> [].
Proof.
  destruct s as [|c s]; simpl; [discriminate|].
  destruct (N.eqb c sep); [discriminate|].
  destruct (split sep s); discriminate.
Qed.

(** Splitting a text read in two parts: the complete lines of the first
    part, then the lines of what follows its last, unfinished line. *)
Lemma split_app (sep : codeunit) (x y : jsstring) :
  split sep (x ++ y)
  = removelast (split sep x) ++ split sep (last (split sep x) [] ++ y).
Proof.
  induction x as [|c x IH]; [reflexivity|].
  cbn [app split].
  pose proof (split_nonempty sep x) as Hne.
  destruct (N.eqb c sep) eqn:E.
  - rewrite IH. destruct (split sep x) as [|l ls]; [contradiction|].
    reflexivity.
  - rewrite IH. destruct (split sep x) as [|l [|l' ls]]; [contradiction| |].
    + cbn [removelast last app split]. now rewrite E.
    + reflexivity.
Qed.

Lemma complete_lines_app (x y : jsstring) :
  complete_lines (x ++ y)
  = complete_lines x ++ complete_lines (last (split LF x) [] ++ y).
Proof.
  unfold complete_lines. rewrite split_app.
  apply removelast_app, split_nonempty.
Qed.

Lemma flat_map_encode (P : Platform) (lines : list jsstring) :
  flat_map (process_line P) lines
  = map (encode P) (flat_map (line_messages P) lines).
Proof.
  induction lines as [|l lines IH]; [reflexivity|].
  simpl. now rewrite map_app, IH.
Qed.

Lemma split_last (sep : codeunit) (x : jsstring) :
  split sep (last (split sep x) []) = [last (split sep x) []].
Proof.
  induction x as [|c x IH]; [reflexivity|].
  cbn [split].
  pose proof (split_nonempty sep x) as Hne.
  destruct (N.eqb c sep) eqn:E.
  - destruct (split sep x) as [|l ls]; [contradiction|]. exact IH.
  - destruct (split sep x) as [|l [|l' ls]]; [contradiction| |].
    + cbn [last] in *. cbn [split]. rewrite E, IH. reflexivity.
    + exact IH.
Qed.

Lemma complete_lines_last (x : jsstring) :
  complete_lines (last (split LF x) []) = [].
Proof. unfold complete_lines. now rewrite split_last. Qed.

(** The loop enqueues, after what was enqueued before, the messages of the
    complete lines of the carried buffer followed by all the text decoded,
    in order, whatever the cuts between reads. *)
Lemma read_loop_lines (P : Platform) (reads : list bytes) :
  forall (d : decoder P) (buffer : jsstring) (failure : option exn)
         (out : list bytes),
    complete_lines buffer = [] ->
    read_loop P d buffer reads failure out
    = (out ++ map (encode P)
                  (flat_map (line_messages P)
                     (complete_lines
                        (buffer ++ List.concat (fst (decode_reads P d reads))))),
       closing (snd (decode_reads P d reads)) failure).
Proof.
  induction reads as [|value reads IH]; intros d buffer failure out Hbuf.
  - simpl. rewrite !app_nil_r, Hbuf. simpl. rewrite app_nil_r.
    now destruct failure.
  - simpl. destruct (decode_chunk P d value) as [[text|e] d'] eqn:E.
    + unfold pop_line.
      rewrite IH by apply complete_lines_last.
      destruct (decode_reads P d' reads) as [texts dfail]. simpl.
      rewrite (app_assoc buffer text).
      rewrite (complete_lines_app (buffer ++ text) (List.concat texts)).
      rewrite flat_map_encode, flat_map_app, map_app, <- app_assoc.
      reflexivity.
    + simpl. rewrite !app_nil_r, Hbuf. simpl. now rewrite app_nil_r.
Qed.

(* ================================================================== *)
(** * One line of the upstream *)

Lemma startsWith_app (p s : jsstring) :
  startsWith p s = true -> s = p ++ skipn (List.length p) s.
Proof.
  revert s; induction p as [|x p IH]; intros s H; [reflexivity|].
  destruct s as [|y s]; [discriminate|]. simpl in H.
  apply andb_true_iff in H. destruct H as [Hxy Hp].
  apply N.eqb_eq in Hxy. subst y. simpl. f_equal. now apply IH.
Qed.

Lemma trimStart_snoc (l : jsstring) (c : codeunit) :
  is_trim_space c = false -> trimStart (l ++ [c]) <> [].
Proof.
  intros Hc. induction l as [|x l IH]; simpl.
  - rewrite Hc. discriminate.
  - destruct (is_trim_space x); [exact IH | discriminate].
Qed.

(** A line with the prefix is never blank. *)
Lemma trim_data_line (line : jsstring) :
  startsWith (lit "data: ") line = true -> str_eqb (trim line) [] = false.
Proof.
  intros H. apply startsWith_app in H. rewrite H.
  set (rest := lit "ata: " ++ skipn (List.length (lit "data: ")) line).
  change (lit "data: " ++ skipn (List.length (lit "data: ")) line)
    with (100 :: rest).
  apply str_eqb_neq. unfold trim. cbn [trimStart].
  change (is_trim_space 100) with false. cbv iota.
  unfold trimEnd. cbn [rev]. intros Hnil.
  apply (f_equal (@rev _)) in Hnil. rewrite rev_involutive in Hnil.
  revert Hnil. now apply trimStart_snoc.
Qed.

Lemma line_messages_data (P : Platform) (line : jsstring) :
  startsWith (lit "data: ") line = true ->
  line_messages P line
  = if str_eqb (slice 6 line) DONE then [sse DONE]
    else delta_messages P (slice 6 line).
Proof.
  intros H. unfold line_messages. now rewrite trim_data_line, H.
Qed.

Lemma line_messages_other (P : Platform) (line : jsstring) :
  startsWith (lit "data: ") line = false -> line_messages P line = [].
Proof.
  intros H. unfold line_messages. rewrite H. now destruct (str_eqb _ _).
Qed.

Lemma sse_inj (a b : jsstring) : sse a = sse b -> a = b.
Proof.
  unfold sse. intros H.
  apply app_inv_head in H. now apply app_inv_tail in H.
Qed.

(** Whatever the line, a message handed to the encoder carries a payload
    that is not empty. *)
Lemma line_messages_payload (P : Platform) (line m : jsstring) :
  In m (line_messages P line) -> exists c, m = sse c /\ c <> [].
Proof.
  destruct (startsWith (lit "data: ") line) eqn:Hpre.
  - rewrite line_messages_data by exact Hpre.
    destruct (str_eqb (slice 6 line) DONE).
    + intros [<- | []]. exists DONE. split; [reflexivity | discriminate].
    + unfold delta_messages.
      destruct (data <- JSON_parse P (slice 6 line) ;; sanitized_delta P data)
        as [[|c cs]|e]; try contradiction.
      intros [<- | []]. exists (c :: cs). split; [reflexivity | discriminate].
  - rewrite line_messages_other by exact Hpre. contradiction.
Qed.

(** C9: for a data line whose payload (other than the [[DONE]] mark) parses
    to [data], the transformer enqueues the one event [data: <text>\n\n]
    when the sanitized delta text is not empty and nothing when it is empty
    or cannot be had; so no event with an empty payload is ever among the
    events of the line. *)
Theorem no_event_for_empty_delta (P : Platform) (line : jsstring)
  (data : value) :
  startsWith (lit "data: ") line = true ->
  slice 6 line <> DONE ->
  JSON_parse P (slice 6 line) = Ok data ->
  line_messages P line
  = match sanitized_delta P data with
    | Ok (c :: cs) => [sse (c :: cs)]
    | Ok [] | Throw _ => []
    end
  /\ (sanitized_delta P data = Ok [] -> process_line P line = [])
  /\ ~ In (sse []) (line_messages P line).
Proof.
  intros Hpre Hdone Hparse.
  assert (line_messages P line
          = match sanitized_delta P data with
            | Ok (c :: cs) => [sse (c :: cs)]
            | Ok [] | Throw _ => []
            end) as Hmsgs.
  { rewrite line_messages_data by exact Hpre.
    apply str_eqb_neq in Hdone. rewrite Hdone.
    unfold delta_messages. rewrite Hparse. simpl.
    destruct (sanitized_delta P data) as [[|c cs]|e]; reflexivity. }
  split; [exact Hmsgs|]. split.
  - intros Hempty. unfold process_line. now rewrite Hmsgs, Hempty.
  - intros Hin. apply line_messages_payload in Hin.
    destruct Hin as (c & Heq & Hc). apply sse_inj in Heq. congruence.
Qed.

(** A delta of three letters gives its event; an ideograph, which the
    sanitizer strips, an empty delta and a missing one give none. *)
Lemma no_event_for_empty_delta_witness :
  line_messages reference_platform line_Hel = [sse (lit "Hel")]
  /\ process_line reference_platform line_ideograph = []
  /\ process_line reference_platform line_empty_delta = []
  /\ process_line reference_platform line_no_choices = []
  /\ ~ In (sse []) (line_messages reference_platform line_Hel).
Proof.
  pose proof (no_event_for_empty_delta reference_platform line_Hel
                (VObject [(lit "choices",
                   VArray [VObject [(lit "delta",
                     VObject [(lit "content", VString (lit "Hel"))])]])])
                eq_refl) as H1.
  pose proof (fun d Hd Hp =>
                proj1 (proj2 (no_event_for_empty_delta reference_platform
                                line_ideograph d eq_refl Hd Hp))) as H2.
  pose proof (fun d Hd Hp =>
                proj1 (proj2 (no_event_for_empty_delta reference_platform
                                line_empty_delta d eq_refl Hd Hp))) as H3.
  pose proof (fun d Hd Hp =>
                proj1 (proj2 (no_event_for_empty_delta reference_platform
                                line_no_choices d eq_refl Hd Hp))) as H4.
  destruct H1 as (H1 & _ & H1'); [discriminate | reflexivity |].
  split; [exact H1|].
  split; [eapply H2; [discriminate | reflexivity | reflexivity]|].
  split; [eapply H3; [discriminate | reflexivity | reflexivity]|].
  split; [eapply H4; [discriminate | reflexivity | reflexivity]|].
  exact H1'.
Defined.

(* ================================================================== *)
(** * The [[DONE]] events of a stream *)

Lemma count_messages_app (m : jsstring) (a b : list jsstring) :
  count_messages m (a ++ b) = (count_messages m a + count_messages m b)%nat.
Proof. unfold count_messages. now rewrite filter_app, length_app. Qed.

Lemma is_done_line_iff (line : jsstring) :
  is_done_line line = true
  <-> startsWith (lit "data: ") line = true /\ slice 6 line = DONE.
Proof.
  unfold is_done_line. rewrite str_eqb_eq. split.
  - intros ->. split; reflexivity.
  - intros [Hpre Hrest]. apply startsWith_app in Hpre.
    rewrite Hpre. unfold slice in Hrest.
    change (List.length (lit "data: ")) with 6%nat. now rewrite Hrest.
Qed.

(** The events with the text [data: [DONE]\n\n] that one line gives. *)
Lemma count_done_line (P : Platform) (line : jsstring) :
  count_messages (sse DONE) (line_messages P line)
  = ((if is_done_line line then 1 else 0)
     + (if is_done_delta P line then 1 else 0))%nat.
Proof.
  destruct (startsWith (lit "data: ") line) eqn:Hpre.
  - rewrite line_messages_data by exact Hpre.
    unfold is_done_delta. rewrite Hpre.
    destruct (str_eqb (slice 6 line) DONE) eqn:D.
    + assert (is_done_line line = true) as ->
        by (apply is_done_line_iff; split; [exact Hpre | now apply str_eqb_eq]).
      reflexivity.
    + assert (is_done_line line = false) as ->.
      { destruct (is_done_line line) eqn:L; [|reflexivity].
        apply is_done_line_iff in L. destruct L as [_ L].
        apply str_eqb_neq in D. contradiction. }
      unfold delta_messages. cbn [andb negb].
      destruct (data <- JSON_parse P (slice 6 line) ;; sanitized_delta P data)
        as [[|c cs]|e]; try reflexivity.
      unfold count_messages. cbn [filter].
      destruct (str_eqb (c :: cs) DONE) eqn:C.
      * apply str_eqb_eq in C. rewrite C, str_eqb_refl. reflexivity.
      * assert (str_eqb (sse DONE) (sse (c :: cs)) = false) as ->; [|reflexivity].
        apply str_eqb_neq. intros Heq. apply sse_inj in Heq.
        apply str_eqb_neq in C. congruence.
  - rewrite line_messages_other by exact Hpre.
    unfold is_done_delta. rewrite Hpre.
    destruct (is_done_line line) eqn:L; [|reflexivity].
    apply is_done_line_iff in L. destruct L as [L _]. congruence.
Qed.

Lemma count_done_lines (P : Platform) (lines : list jsstring) :
  count_messages (sse DONE) (flat_map (line_messages P) lines)
  = (List.length (filter is_done_line lines)
     + List.length (filter (is_done_delta P) lines))%nat.
Proof.
  induction lines as [|l lines IH]; [reflexivity|].
  simpl. rewrite count_messages_app, count_done_line, IH.
  destruct (is_done_line l), (is_done_delta P l); simpl; lia.
Qed.

(** What [start] enqueues and how the stream ends, for any upstream. *)
Lemma transform_lines (P : Platform) (up : Upstream) :
  transform P (Some up)
  = (map (encode P)
         (flat_map (line_messages P) (complete_lines (decoded_text P up))),
     closing (snd (decode_reads P (new_decoder P) (chunks up)))
             (read_error up)).
Proof.
  unfold transform, decoded_text.
  rewrite read_loop_lines by reflexivity. reflexivity.
Qed.

(** C5, as the code has it: the events enqueued are the messages of the
    complete lines of the decoded upstream text; among them there is one
    [data: [DONE]\n\n] for each complete line that is exactly
    [data: [DONE]] and one for each other data line whose sanitized delta
    text is [[DONE]], and no more; and the stream ends closed when every
    read decoded and the upstream ended, whether a [[DONE]] came or not. *)
Theorem done_events_of_stream (P : Platform) (up : Upstream) :
  let lines := complete_lines (decoded_text P up) in
  let messages := flat_map (line_messages P) lines in
  fst (transform P (Some up)) = map (encode P) messages
  /\ count_messages (sse DONE) messages
     = (List.length (filter is_done_line lines)
        + List.length (filter (is_done_delta P) lines))%nat
  /\ (snd (decode_reads P (new_decoder P) (chunks up)) = None ->
      read_error up = None ->
      snd (transform P (Some up)) = Closed).
Proof.
  cbv zeta. rewrite transform_lines. simpl.
  split; [reflexivity|]. split; [apply count_done_lines|].
  now intros -> ->.
Qed.

(** An upstream that ends without [[DONE]]: its one event goes out, no
    [[DONE]] event does, and the stream closes. *)
Lemma done_events_of_stream_witness :
  fst (transform reference_platform (Some no_done_upstream))
  = [utf8_encode (sse (lit "Hel"))]
  /\ count_messages (sse DONE)
       (flat_map (line_messages reference_platform)
          (complete_lines (decoded_text reference_platform no_done_upstream)))
     = 0%nat
  /\ snd (transform reference_platform (Some no_done_upstream)) = Closed.
Proof.
  destruct (done_events_of_stream reference_platform no_done_upstream)
    as (Hout & Hcount & Hclose).
  split; [exact Hout|]. split; [exact Hcount|].
  apply Hclose; reflexivity.
Defined.

(** C5 as stated fails where the upstream sends [[DONE]] twice: a complete
    line with the payload is there, and two events, not one, go out. *)
Lemma exactly_one_done_counterexample :
  ~ (count_messages (utf8_encode (sse DONE))
       (fst (transform reference_platform (Some twice_done_upstream)))
     = 1%nat
     <-> existsb is_done_line
           (complete_lines (decoded_text reference_platform
                              twice_done_upstream))
         = true).
Proof.
  intros [_ H]. specialize (H eq_refl). vm_compute in H. discriminate.
Qed.

(** And a delta whose text is [[DONE]] gives the event although no line has
    that payload. *)
Lemma done_delta_event :
  fst (transform reference_platform (Some done_delta_upstream))
  = [utf8_encode (sse DONE)]
  /\ existsb is_done_line
       (complete_lines (decoded_text reference_platform done_delta_upstream))
     = false.
Proof. split; vm_compute; reflexivity. Qed.

(* ================================================================== *)
(** * From the upstream to the page *)

(** C1 as stated fails: the buffer of the page is not [Hello]. *)
Lemma hello_buffer_counterexample :
  readStream reference_platform
    (fst (transform reference_platform (Some hello_upstream)))
  <> lit "Hello".
Proof. vm_compute. discriminate. Qed.

(** C1, as the code has it: for the upstream of the three events the
    transformer enqueues exactly [data: Hel\n\n], [data: lo\n\n] and
    [data: [DONE]\n\n] and closes, also when the same bytes come in two
    reads cut anywhere; the page, reading these events one by one or all
    in one read, ends with the buffer [Hel lo]: the join puts a space
    between [Hel] and [lo], a letter meeting a letter. *)
Theorem hello_end_to_end :
  transform reference_platform (Some hello_upstream)
  = (map utf8_encode [sse (lit "Hel"); sse (lit "lo"); sse DONE], Closed)
  /\ Forall (fun k =>
               transform reference_platform (Some (hello_cut k))
               = (map utf8_encode [sse (lit "Hel"); sse (lit "lo"); sse DONE],
                  Closed))
            (seq 0 (S (List.length (List.concat hello_events))))
  /\ join (lit "Hel") (lit "lo") = lit "Hel lo"
  /\ readStream reference_platform
       (fst (transform reference_platform (Some hello_upstream)))
     = lit "Hel lo"
  /\ readStream reference_platform
       [List.concat
          (fst (transform reference_platform (Some hello_upstream)))]
     = lit "Hel lo".
Proof.
  split; [vm_compute; reflexivity|].
  split; [|repeat split; vm_compute; reflexivity].
  cbv [seq hello_events List.concat List.length app jq lit map
       list_ascii_of_string].
  repeat (constructor; [vm_compute; reflexivity|]).
  constructor.
Qed.

(* ================================================================== *)
(** * Further properties of the transformer *)

Lemma split_no_LF (s : jsstring) : has_LF s = false -> split LF s = [s].
Proof.
  induction s as [|c s IH]; [reflexivity|].
  simpl. intros H. apply orb_false_iff in H. destruct H as [Hc Hs].
  now rewrite Hc, IH.
Qed.

Lemma split_line (l rest : jsstring) :
  has_LF l = false -> split LF (l ++ LF :: rest) = l :: split LF rest.
Proof.
  induction l as [|c l IH]; [reflexivity|].
  simpl. intros H. apply orb_false_iff in H. destruct H as [Hc Hl].
  now rewrite Hc, IH.
Qed.

(** Splitting gives back the lines a text was made of; what follows the
    last line feed is no complete line. *)
Lemma complete_lines_unlines (ls : list jsstring) (tail : jsstring) :
  Forall (fun l => has_LF l = false) ls ->
  has_LF tail = false ->
  complete_lines (unlines ls ++ tail) = ls.
Proof.
  intros Hls Htail. unfold complete_lines.
  induction Hls as [|l ls Hl _ IH]; simpl.
  - now rewrite split_no_LF.
  - rewrite <- !app_assoc. simpl. rewrite split_line by exact Hl.
    pose proof (split_nonempty LF (unlines ls ++ tail)) as Hne.
    destruct (split LF (unlines ls ++ tail)) as [|x xs] eqn:E;
      [contradiction|].
    rewrite <- IH. reflexivity.
Qed.

Lemma pure_ascii_forallb (s : jsstring) :
  forallb is_ascii s = true -> pure_ascii s.
Proof.
  intros H. apply Forall_forall. intros c Hc.
  apply is_ascii_le. rewrite forallb_forall in H. now apply H.
Qed.

Lemma sse_pure (c : jsstring) : pure_ascii c -> pure_ascii (sse c).
Proof.
  intros Hc. unfold sse, pure_ascii.
  apply Forall_app; split; [now apply pure_ascii_forallb|].
  apply Forall_app; split; [exact Hc | now apply pure_ascii_forallb].
Qed.

Lemma line_messages_pure (P : Platform) (line m : jsstring) :
  In m (line_messages P line) -> pure_ascii m.
Proof.
  destruct (startsWith (lit "data: ") line) eqn:Hpre.
  - rewrite line_messages_data by exact Hpre.
    destruct (str_eqb (slice 6 line) DONE).
    + intros [<- | []]. now apply pure_ascii_forallb.
    + unfold delta_messages.
      destruct (JSON_parse P (slice 6 line)) as [data|e]; simpl;
        [|contradiction].
      destruct (sanitized_delta P data) as [[|c cs]|e] eqn:E;
        try contradiction.
      intros [<- | []]. apply sse_pure.
      unfold sanitized_delta in E.
      destruct (get_prop data (lit "choices")); simpl in E; [|discriminate].
      eapply sanitizeContent_pure; eassumption.
  - rewrite line_messages_other by exact Hpre. contradiction.
Qed.

(** X1: the events do not depend on how the upstream is cut into reads:
    two upstreams from which the decoder gets the same text give the same
    events. *)
Theorem transform_any_cuts (P : Platform) (up1 up2 : Upstream) :
  decoded_text P up1 = decoded_text P up2 ->
  fst (transform P (Some up1)) = fst (transform P (Some up2)).
Proof. intros H. rewrite !transform_lines. simpl. now rewrite H. Qed.

Lemma transform_any_cuts_witness :
  decoded_text reference_platform hello_upstream
  = decoded_text reference_platform (hello_cut 10)
  /\ fst (transform reference_platform (Some hello_upstream))
     = fst (transform reference_platform (Some (hello_cut 10))).
Proof.
  split; [reflexivity|].
  apply (transform_any_cuts reference_platform hello_upstream (hello_cut 10)).
  reflexivity.
Defined.

(** X2: when the decoded text is the lines [ls], each ended by a line
    feed, followed by a rest without line feed, the events are those of
    [ls], line by line and in order: the unfinished rest is dropped at the
    end of the upstream, and a line that gives no event (blank, without
    the prefix, not JSON) leaves the events of the others as they are. *)
Theorem transform_of_lines (P : Platform) (up : Upstream)
  (ls : list jsstring) (tail : jsstring) :
  decoded_text P up = unlines ls ++ tail ->
  Forall (fun l => has_LF l = false) ls ->
  has_LF tail = false ->
  fst (transform P (Some up))
  = map (encode P) (flat_map (line_messages P) ls).
Proof.
  intros Htext Hls Htail.
  rewrite transform_lines. simpl.
  now rewrite Htext, complete_lines_unlines.
Qed.

(** Four lines, of which only the first gives an event, and the
    unfinished [data: [DONE]] that is dropped. *)
Lemma transform_of_lines_witness :
  decoded_text reference_platform ragged_upstream
  = unlines ragged_lines ++ lit "data: [DONE]"
  /\ fst (transform reference_platform (Some ragged_upstream))
     = [utf8_encode (sse (lit "Hel"))].
Proof.
  split; [reflexivity|].
  rewrite (transform_of_lines reference_platform ragged_upstream
             ragged_lines (lit "data: [DONE]")).
  - reflexivity.
  - reflexivity.
  - repeat constructor.
  - reflexivity.
Defined.

(** X3: whatever the upstream sends, every chunk enqueued is the encoding
    of a text [data: <payload>\n\n] that is pure 7-bit ASCII and whose
    payload is not empty. *)
Theorem transform_output_ascii (P : Platform) (up : Upstream) :
  exists messages,
    fst (transform P (Some up)) = map (encode P) messages
    /\ Forall (fun m => pure_ascii m /\ exists c, m = sse c /\ c <> [])
              messages.
Proof.
  rewrite transform_lines. simpl. eexists. split; [reflexivity|].
  apply Forall_forall. intros m Hm.
  apply in_flat_map in Hm. destruct Hm as (line & _ & Hm).
  split; [eapply line_messages_pure | eapply line_messages_payload];
    eassumption.
Qed.

(** X4: a read that fails does not take back anything: the events are
    those of the same reads ending well, and the stream ends in error
    instead of closing. *)
Theorem transform_read_failure (P : Platform) (reads : list bytes)
  (e : exn) :
  fst (transform P (Some {| chunks := reads; read_error := Some e |}))
  = fst (transform P (Some {| chunks := reads; read_error := None |}))
  /\ exists e',
       snd (transform P (Some {| chunks := reads; read_error := Some e |}))
       = Errored e'.
Proof.
  rewrite !transform_lines. simpl. split; [reflexivity|].
  destruct (snd (decode_reads P (new_decoder P) reads)); simpl; eauto.
Qed.

(* ================================================================== *)
(** * Further properties of fetchWithRetries *)

Lemma backoff_S (delay : N) (n : nat) :
  backoff delay (S n) = delay :: backoff (delay * 2) n.
Proof.
  unfold backoff. cbn [seq map].
  rewrite <- seq_shift, map_map. f_equal.
  - change (N.of_nat 0) with 0. rewrite N.pow_0_r. lia.
  - apply map_ext. intros i.
    rewrite Nat2N.inj_succ, N.pow_succ_r'. lia.
Qed.

Lemma try_fetch_ok (o : fetch_outcome) (r : Response) :
  try_fetch o = Ok r -> o = FetchResponds r /\ ok r = true.
Proof.
  destruct o as [e|r']; simpl; [discriminate|].
  destruct (ok r') eqn:E; simpl; [|discriminate].
  intros [= <-]. auto.
Qed.

(** A call makes [k] requests, between one and [retries + 1]: the first
    [k - 1] fail, each followed by its wait, and the call comes to what the
    last one comes to; it stops short only on a success. *)
Lemma fetchWithRetries_run fetch url options (retries : nat) :
  forall (delay : N) (w : Net),
  exists k,
    (1 <= k <= S retries)%nat
    /\ fetchWithRetries fetch url options retries delay w
       = (try_fetch (fetch (attempts w + k - 1)%nat url options),
          {| attempts := attempts w + k;
             sleeps := sleeps w ++ backoff delay (k - 1) |})
    /\ (forall i, (i < k - 1)%nat ->
                  exists e,
                    try_fetch (fetch (attempts w + i)%nat url options)
                    = Throw e)
    /\ ((k < S retries)%nat ->
        exists r,
          try_fetch (fetch (attempts w + k - 1)%nat url options) = Ok r).
Proof.
  induction retries as [|retries IH]; intros delay w.
  - exists 1%nat. split; [lia|]. cbn [fetchWithRetries].
    replace (attempts w + 1 - 1)%nat with (attempts w) by lia.
    replace (attempts w + 1)%nat with (S (attempts w)) by lia.
    cbn [Nat.sub backoff seq map]. rewrite app_nil_r.
    split; [now destruct (try_fetch _)|].
    split; [intros i Hi; lia | intros Hk; lia].
  - destruct (try_fetch (fetch (attempts w) url options)) as [r|e] eqn:E.
    + exists 1%nat. split; [lia|].
      erewrite fetchWithRetries_success by exact E.
      replace (attempts w + 1 - 1)%nat with (attempts w) by lia.
      replace (attempts w + 1)%nat with (S (attempts w)) by lia.
      cbn [Nat.sub backoff seq map]. rewrite app_nil_r, E.
      split; [reflexivity|].
      split; [intros i Hi; lia | intros _; eauto].
    + erewrite fetchWithRetries_retry by exact E.
      destruct (IH (delay * 2)
                   {| attempts := S (attempts w);
                      sleeps := sleeps w ++ [delay] |})
        as (k & Hk & Hrun & Hfail & Hshort).
      cbn [attempts sleeps] in *.
      exists (S k). split; [lia|]. rewrite Hrun.
      replace (S (attempts w) + k - 1)%nat with (attempts w + S k - 1)%nat
        in * by lia.
      replace (S (attempts w) + k)%nat with (attempts w + S k)%nat by lia.
      replace (S k - 1)%nat with (S (k - 1)) by lia.
      rewrite backoff_S, <- app_assoc. cbn [app].
      split; [reflexivity|].
      split.
      * intros i Hi. destruct i as [|i].
        -- rewrite Nat.add_0_r. eauto.
        -- destruct (Hfail i) as [e' He']; [lia|].
           replace (attempts w + S i)%nat with (S (attempts w) + i)%nat
             by lia.
           eauto.
      * intros Hlt. apply Hshort. lia.
Qed.

(** X5: for any number of retries and any first delay, a call started on a
    fresh network makes between one and [retries + 1] requests; every
    request but the last failed and was followed by a wait, the waits
    being [delay], [2 delay], [4 delay], ... in this order; the call comes
    to what the last request comes to, and it stops before request
    [retries + 1] only on a success. *)
Theorem fetchWithRetries_schedule fetch url options (retries : nat)
  (delay : N) :
  exists k,
    (1 <= k <= S retries)%nat
    /\ fetchWithRetries fetch url options retries delay net0
       = (try_fetch (fetch (k - 1)%nat url options),
          {| attempts := k; sleeps := backoff delay (k - 1) |})
    /\ (forall i, (i < k - 1)%nat ->
                  exists e, try_fetch (fetch i url options) = Throw e)
    /\ ((k < S retries)%nat ->
        exists r, try_fetch (fetch (k - 1)%nat url options) = Ok r).
Proof.
  destruct (fetchWithRetries_run fetch url options retries delay net0)
    as (k & Hk & Hrun & Hfail & Hshort).
  exists k. cbn [net0 attempts sleeps Nat.add app] in *. auto.
Qed.

(** X6: a response that [fetchWithRetries] returns has a status from 200 to
    299; a response with another status is never handed to the caller. *)
Theorem fetchWithRetries_returns_ok fetch url options (retries : nat)
  (delay : N) (w w' : Net) (r : Response) :
  fetchWithRetries fetch url options retries delay w = (Ok r, w') ->
  ok r = true /\ 200 <= status r <= 299.
Proof.
  intros H.
  destruct (fetchWithRetries_run fetch url options retries delay w)
    as (k & _ & Hrun & _).
  rewrite Hrun in H. injection H as H _.
  apply try_fetch_ok in H. destruct H as [_ H]. split; [exact H|].
  unfold ok, in_range in H. apply andb_true_iff in H.
  destruct H as [H1 H2]. apply N.leb_le in H1, H2. lia.
Qed.

Lemma fetchWithRetries_returns_ok_witness :
  ok response_200 = true /\ 200 <= status response_200 <= 299.
Proof.
  apply (fetchWithRetries_returns_ok flaky_fetch together_url no_options
           default_retries default_delay net0
           {| attempts := 3; sleeps := [1000; 2000] |} response_200).
  reflexivity.
Defined.

(* ================================================================== *)
(** * Further properties of the validation *)

Lemma role_of_nonempty (rs : jsstring) (r : Role) :
  role_of rs = Some r -> rs <> [].
Proof. intros H ->. discriminate. Qed.

(** What [validate_message] accepts, whatever the index. *)
Lemma validate_message_accepts (msg : value) (index : nat)
  (m : ChatMessage) :
  validate_message msg index = Ok m <-> accepts msg m.
Proof.
  split.
  - unfold validate_message, accepts.
    destruct msg as [| |b|n e|str|items|fields]; try discriminate;
      try (destruct b; discriminate);
      try (cbn; destruct (number_is_zero n e); discriminate);
      try (destruct str; discriminate).
    cbn [truthy is_object typeof negb orb get_prop bind].
    destruct (lookup_last (lit "role") fields) as [[| |b|n e|rs|l|l]|] eqn:R;
      try discriminate.
    destruct rs as [|r0 rs]; [discriminate|].
    cbn [is_string typeof truthy negb orb].
    destruct (lookup_last (lit "content") fields)
      as [[| |b|n e|cs|l|l]|] eqn:C; try discriminate.
    destruct cs as [|c0 cs]; [discriminate|].
    cbn [is_string typeof truthy negb orb].
    destruct (role_of (r0 :: rs)) as [ro|] eqn:Ro; [|discriminate].
    intros [= <-]. exists fields, (r0 :: rs), (c0 :: cs).
    repeat split; auto. discriminate.
  - intros (fields & rs & cs & -> & R & Ro & C & Hcs & Hm).
    pose proof (role_of_nonempty rs (role m) Ro) as Hrs.
    unfold validate_message.
    cbn [truthy is_object typeof negb orb get_prop bind].
    rewrite R. destruct rs as [|r0 rs]; [contradiction|].
    cbn [is_string typeof truthy negb orb]. rewrite C.
    destruct cs as [|c0 cs]; [contradiction|].
    cbn [is_string typeof truthy negb orb]. rewrite Ro.
    destruct m as [ro co]. cbn in Hm. now rewrite Hm.
Qed.

Lemma mapM_index_validate (raw : list value) :
  forall (i : nat) (messages : list ChatMessage),
    mapM_index validate_message i raw = Ok messages
    <-> Forall2 accepts raw messages.
Proof.
  induction raw as [|msg raw IH]; intros i messages; cbn [mapM_index].
  - split.
    + intros [= <-]. constructor.
    + intros H. inversion H. reflexivity.
  - split.
    + destruct (validate_message msg i) as [m|e] eqn:Hm; [|discriminate].
      cbn [bind].
      destruct (mapM_index validate_message (S i) raw) as [ms|e] eqn:Hms;
        [|discriminate].
      cbn [bind]. intros [= <-]. constructor.
      * now apply (validate_message_accepts msg i).
      * now apply (IH (S i)).
    + intros H. inversion H as [|msg' m raw' ms Hm Hms]; subst.
      apply (validate_message_accepts msg i) in Hm. rewrite Hm. cbn [bind].
      apply (IH (S i)) in Hms. rewrite Hms. reflexivity.
Qed.

(** The callback throws at the first message it does not accept, with the
    index of that message. *)
Lemma mapM_index_first_throw (front : list value) (bad : value)
  (rest : list value) (e : exn) :
  forall i,
    Forall (fun msg => exists m, accepts msg m) front ->
    validate_message bad (i + List.length front)%nat = Throw e ->
    mapM_index validate_message i (front ++ bad :: rest) = Throw e.
Proof.
  induction front as [|msg front IH]; intros i Hfront Hbad; cbn.
  - rewrite Nat.add_0_r in Hbad. now rewrite Hbad.
  - inversion Hfront as [|? ? [m Hm] Hrest]; subst.
    apply (validate_message_accepts msg i) in Hm. rewrite Hm. cbn [bind].
    rewrite (IH (S i)); [reflexivity | exact Hrest |].
    cbn in Hbad. now replace (S i + List.length front)%nat
      with (i + S (List.length front))%nat by lia.
Qed.

(** What an accepted body is made of. *)
Lemma validate_body_inv (body : value) (messages : list ChatMessage) :
  validate_body body = Ok messages ->
  messages <> []
  /\ exists fields raw,
       body = VObject fields
       /\ lookup_last (lit "messages") fields = Some (VArray raw)
       /\ Forall2 accepts raw messages.
Proof.
  unfold validate_body.
  destruct body as [| |b|n e|str|items|fields]; try discriminate;
    try (destruct b; discriminate);
    try (cbn; destruct (number_is_zero n e); discriminate);
    try (destruct str; discriminate).
  cbn [truthy is_object typeof negb orb get_prop bind].
  destruct (lookup_last (lit "messages") fields)
    as [[| |b|n e|cs|raw|l]|] eqn:M; try discriminate.
  destruct (mapM_index validate_message 0 raw) as [ms|e] eqn:Hms;
    [|discriminate].
  cbn [bind]. destruct ms as [|m ms]; [discriminate|].
  intros [= <-]. split; [discriminate|].
  exists fields, raw. repeat split; auto.
  now apply (mapM_index_validate raw 0%nat).
Qed.

(** X7: the body is accepted exactly when it is an object whose [messages]
    is a non-empty array of objects, each with a [role] among [user],
    [assistant], [system] and a [content] that is a non-empty string; the
    messages that come out are these, in order, with the content trimmed. *)
Theorem validate_body_accepts (body : value) (messages : list ChatMessage) :
  validate_body body = Ok messages
  <-> messages <> []
      /\ exists fields raw,
           body = VObject fields
           /\ lookup_last (lit "messages") fields = Some (VArray raw)
           /\ Forall2 accepts raw messages.
Proof.
  split; [apply validate_body_inv|].
  intros (Hne & fields & raw & -> & M & Hall).
  unfold validate_body.
  cbn [truthy is_object typeof negb orb get_prop bind]. rewrite M.
  apply (mapM_index_validate raw 0%nat) in Hall. rewrite Hall.
  cbn [bind]. destruct messages; [contradiction | reflexivity].
Qed.

(** X8: when the messages before index [k] are acceptable and the one at
    [k] is not, the body is refused with the error of that message, the
    one that names the index [k]; what follows it is not looked at. *)
Theorem validate_body_first_invalid (fields : list (jsstring * value))
  (front : list value) (bad : value) (rest : list value) (e : exn) :
  lookup_last (lit "messages") fields = Some (VArray (front ++ bad :: rest)) ->
  Forall (fun msg => exists m, accepts msg m) front ->
  validate_message bad (List.length front) = Throw e ->
  validate_body (VObject fields) = Throw e.
Proof.
  intros M Hfront Hbad. unfold validate_body.
  cbn [truthy is_object typeof negb orb get_prop bind]. rewrite M.
  now rewrite (mapM_index_first_throw front bad rest e 0%nat).
Qed.

Lemma validate_body_first_invalid_witness :
  validate_body bot_body
  = Throw (Error (lit "Invalid message at index 1: role must be 'user', 'assistant', or 'system'")).
Proof.
  apply (validate_body_first_invalid
           [(lit "messages",
             VArray [raw_message "user" "hi"; raw_message "bot" "beep"])]
           [raw_message "user" "hi"] (raw_message "bot" "beep") []).
  - reflexivity.
  - constructor; [|constructor].
    exists {| role := user; content := lit "hi" |}.
    exists [(lit "role", VString (lit "user"));
            (lit "content", VString (lit "hi"))], (lit "user"), (lit "hi").
    repeat split. discriminate.
  - reflexivity.
Defined.

Lemma validate_body_accepts_witness :
  validate_body hi_body = Ok [ {| role := user; content := lit "hi" |} ].
Proof.
  apply (proj2 (validate_body_accepts hi_body
                  [ {| role := user; content := lit "hi" |} ])).
  split; [discriminate|].
  exists [(lit "messages", VArray [raw_message "user" " hi "])],
         [raw_message "user" " hi "].
  repeat split. constructor; [|constructor].
  exists [(lit "role", VString (lit "user"));
          (lit "content", VString (lit " hi "))], (lit "user"), (lit " hi ").
  repeat split. discriminate.
Defined.

(** ** Trimmed contents *)

Lemma trimStart_idempotent (s : jsstring) :
  trimStart (trimStart s) = trimStart s.
Proof.
  induction s as [|c s IH]; [reflexivity|].
  simpl. destruct (is_trim_space c) eqn:E; [exact IH|].
  simpl. now rewrite E.
Qed.

Lemma trimStart_fixed (c : codeunit) (s : jsstring) :
  is_trim_space c = false -> trimStart (c :: s) = c :: s.
Proof. intros E. simpl. now rewrite E. Qed.

Lemma trimStart_head (s : jsstring) :
  trimStart s = [] \/ exists c t, trimStart s = c :: t
                                  /\ is_trim_space c = false.
Proof.
  induction s as [|c s IH]; [now left|].
  simpl. destruct (is_trim_space c) eqn:E; [exact IH|].
  right. eauto.
Qed.

Lemma trimStart_keeps_last (l : jsstring) (c : codeunit) :
  is_trim_space c = false -> exists l', trimStart (l ++ [c]) = l' ++ [c].
Proof.
  intros Hc. induction l as [|x l IH]; simpl.
  - rewrite Hc. now exists [].
  - destruct (is_trim_space x); [exact IH|]. now exists (x :: l).
Qed.

Lemma trimEnd_idempotent (s : jsstring) : trimEnd (trimEnd s) = trimEnd s.
Proof.
  unfold trimEnd. now rewrite rev_involutive, trimStart_idempotent.
Qed.

Lemma trimEnd_keeps_head (c : codeunit) (s : jsstring) :
  is_trim_space c = false -> exists t, trimEnd (c :: s) = c :: t.
Proof.
  intros Hc. unfold trimEnd. cbn [rev].
  destruct (trimStart_keeps_last (rev s) c Hc) as [l' Hl'].
  rewrite Hl', rev_app_distr. cbn. eauto.
Qed.

Lemma trim_idempotent (s : jsstring) : trim (trim s) = trim s.
Proof.
  unfold trim.
  destruct (trimStart_head s) as [E | (c & t & E & Hc)]; rewrite E.
  - reflexivity.
  - destruct (trimEnd_keeps_head c t Hc) as [u Hu].
    rewrite Hu, (trimStart_fixed c u Hc), <- Hu.
    apply trimEnd_idempotent.
Qed.

(** X9: the content of every message that validation lets through is
    trimmed: stripping white space from its ends again changes nothing. *)
Theorem validated_content_trimmed (body : value)
  (messages : list ChatMessage) :
  validate_body body = Ok messages ->
  Forall (fun m => trim (content m) = content m) messages.
Proof.
  intros H. apply validate_body_inv in H.
  destruct H as (_ & fields & raw & _ & _ & Hall).
  induction Hall as [|msg m raw ms Hm _ IH]; constructor; [|exact IH].
  destruct Hm as (f & rs & cs & _ & _ & _ & _ & _ & ->).
  apply trim_idempotent.
Qed.

Lemma validated_content_trimmed_witness :
  Forall (fun m => trim (content m) = content m)
         [ {| role := user; content := lit "hi" |} ].
Proof.
  apply (validated_content_trimmed hi_body). reflexivity.
Defined.

(* ================================================================== *)
(** * Further properties of POST *)

Lemma payload_messages_ok (P : Platform) (messages : list ChatMessage) :
  exists ms,
    mapM (payload_message P) messages = Ok ms
    /\ Forall2 (fun m v =>
                  exists c,
                    v = VObject [ (lit "role", VString (role_name (role m)));
                                  (lit "content", VString c) ]
                    /\ sanitizeContent P (VString (content m)) = Ok c
                    /\ pure_ascii c)
               messages ms.
Proof.
  induction messages as [|m messages (ms & Hms & Hall)].
  - exists []. split; [reflexivity | constructor].
  - destruct (sanitizeContent P (VString (content m))) as [c|e] eqn:E;
      [|rewrite sanitizeContent_string in E; discriminate].
    eexists. cbn [mapM]. unfold payload_message at 1.
    rewrite E. cbn [bind]. rewrite Hms. cbn [bind].
    split; [reflexivity|]. constructor; [|exact Hall].
    exists c. repeat split; auto.
    eapply sanitizeContent_pure; eassumption.
Qed.

(** X10: building the payload never fails; it holds one entry for each
    message, in order and with the same role, and the content of every
    entry is the sanitized content of its message, pure 7-bit ASCII. *)
Theorem payload_ascii (P : Platform) (messages : list ChatMessage) :
  exists ms,
    payload P messages
    = Ok (VObject
            [ (lit "model", VString (lit "deepseek-ai/DeepSeek-V3"));
              (lit "messages", VArray ms);
              (lit "temperature", VNumber 7 (-1));
              (lit "top_p", VNumber 95 (-2));
              (lit "top_k", VNumber 50 0);
              (lit "stream", VBool true) ])
    /\ Forall2 (fun m v =>
                  exists c,
                    v = VObject [ (lit "role", VString (role_name (role m)));
                                  (lit "content", VString c) ]
                    /\ sanitizeContent P (VString (content m)) = Ok c
                    /\ pure_ascii c)
               messages ms.
Proof.
  destruct (payload_messages_ok P messages) as (ms & Hms & Hall).
  exists ms. unfold payload. rewrite Hms. now split.
Qed.

(** X11: an event stream is answered only when both keys are set, the body
    parses and is accepted, the search for the content of the last message
    succeeds, and [fetchWithRetries] hands over a response (of status 200
    to 299); the stream is then the transformation of the body of that
    response. *)
Theorem POST_streams_only_when (P : Platform) (env : Env)
  (req_json : result value) (search : jsstring -> result jsstring)
  (fetch : nat -> jsstring -> RequestInit -> fetch_outcome)
  (out : list bytes) (st : stream_status) :
  POST P env req_json search fetch = Streamed out st ->
  unset (TOGETHER_API_KEY env) = false
  /\ unset (TAVILY_API_KEY env) = false
  /\ exists body messages query results pl response w,
       req_json = Ok body
       /\ validate_body body = Ok messages
       /\ search_query messages = Ok query
       /\ search query = Ok results
       /\ payload P (inject (systemMessage results) messages) = Ok pl
       /\ fetchWithRetries fetch together_url
            (request_options (key_text (TOGETHER_API_KEY env)) pl)
            default_retries default_delay net0 = (Ok response, w)
       /\ ok response = true
       /\ transform P (res_body response) = (out, st).
Proof.
  unfold POST.
  destruct (unset (TOGETHER_API_KEY env)); [discriminate|].
  destruct (unset (TAVILY_API_KEY env)); [discriminate|].
  destruct req_json as [body|e]; [|discriminate]. cbn [bind].
  destruct (validate_body body) as [messages|e] eqn:V; [|discriminate].
  cbn [bind].
  destruct (search_query messages) as [query|e] eqn:Q; [|discriminate].
  cbn [bind].
  destruct (search query) as [results|e] eqn:S; [|discriminate].
  cbn [bind].
  destruct (payload P (inject (systemMessage results) messages))
    as [pl|e] eqn:Pl; [|discriminate].
  cbn [bind].
  change {| attempts := 0; sleeps := [] |} with net0.
  destruct (fetchWithRetries fetch together_url
              (request_options (key_text (TOGETHER_API_KEY env)) pl)
              default_retries default_delay net0) as [[response|e] w] eqn:F;
    [|discriminate].
  cbn [fst bind].
  destruct (transform P (res_body response)) as [out' st'] eqn:T.
  intros [= <- <-].
  repeat split.
  exists body, messages, query, results, pl, response, w.
  repeat split; auto.
  destruct (fetchWithRetries_run fetch together_url
              (request_options (key_text (TOGETHER_API_KEY env)) pl)
              default_retries default_delay net0) as (k & _ & Hrun & _).
  rewrite Hrun in F. injection F as F _.
  now apply try_fetch_ok in F.
Qed.

Lemma POST_streams_only_when_witness :
  POST reference_platform both_keys (Ok hi_body) empty_search hello_fetch
  = Streamed (map utf8_encode [sse (lit "Hel"); sse (lit "lo"); sse DONE])
             Closed
  /\ unset (TOGETHER_API_KEY both_keys) = false
  /\ unset (TAVILY_API_KEY both_keys) = false.
Proof.
  assert (POST reference_platform both_keys (Ok hi_body) empty_search
            hello_fetch
          = Streamed
              (map utf8_encode [sse (lit "Hel"); sse (lit "lo"); sse DONE])
              Closed) as H by (vm_compute; reflexivity).
  split; [exact H|].
  destruct (POST_streams_only_when reference_platform both_keys
              (Ok hi_body) empty_search hello_fetch _ _ H) as (H1 & H2 & _).
  now split.
Defined.

Ltac failed_alike := split; [reflexivity | eexists; reflexivity].

(** X12: with a key that is not set, a body that does not parse, or a body
    that validation refuses, the answer is the failure, and it is the same
    whatever the search provider and the network would do: neither is
    consulted. *)
Theorem POST_fails_before_io (P : Platform) (env : Env)
  (req_json : result value)
  (search search' : jsstring -> result jsstring)
  (fetch fetch' : nat -> jsstring -> RequestInit -> fetch_outcome) :
  unset (TOGETHER_API_KEY env) = true
  \/ unset (TAVILY_API_KEY env) = true
  \/ (exists e, req_json = Throw e)
  \/ (exists body e, req_json = Ok body /\ validate_body body = Throw e) ->
  POST P env req_json search fetch = POST P env req_json search' fetch'
  /\ exists e, POST P env req_json search fetch = Failed e.
Proof.
  unfold POST.
  intros [H | [H | [[e ->] | (body & e & -> & H)]]].
  - rewrite H. failed_alike.
  - rewrite H. destruct (unset (TOGETHER_API_KEY env)); failed_alike.
  - destruct (unset (TOGETHER_API_KEY env)); [failed_alike|].
    destruct (unset (TAVILY_API_KEY env)); failed_alike.
  - destruct (unset (TOGETHER_API_KEY env)); [failed_alike|].
    destruct (unset (TAVILY_API_KEY env)); [failed_alike|].
    cbn [bind]. rewrite H. cbn [bind]. failed_alike.
Qed.

Lemma POST_fails_before_io_witness :
  POST reference_platform no_search_key (Ok hi_body) empty_search hello_fetch
  = POST reference_platform no_search_key (Ok hi_body) failing_search
      failing_fetch
  /\ exists e,
       POST reference_platform no_search_key (Ok hi_body) empty_search
         hello_fetch = Failed e.
Proof.
  apply (POST_fails_before_io reference_platform no_search_key (Ok hi_body)
           empty_search failing_search hello_fetch failing_fetch).
  right. left. reflexivity.
Defined.

(** X13: when the search provider rejects, the request fails with that
    rejection as it is, whatever the network would do: no completion
    request is made. *)
Theorem POST_search_failure (P : Platform) (env : Env) (body : value)
  (messages : list ChatMessage) (query : jsstring)
  (search : jsstring -> result jsstring) (e : exn)
  (fetch : nat -> jsstring -> RequestInit -> fetch_outcome) :
  unset (TOGETHER_API_KEY env) = false ->
  unset (TAVILY_API_KEY env) = false ->
  validate_body body = Ok messages ->
  search_query messages = Ok query ->
  search query = Throw e ->
  POST P env (Ok body) search fetch = Failed e.
Proof.
  intros K1 K2 V Q S. unfold POST.
  rewrite K1, K2. cbn [bind]. rewrite V. cbn [bind].
  rewrite Q. cbn [bind]. rewrite S. reflexivity.
Qed.

Lemma POST_search_failure_witness :
  POST reference_platform both_keys (Ok hi_body) failing_search hello_fetch
  = Failed (Rejected 1).
Proof.
  apply (POST_search_failure reference_platform both_keys hi_body
           [ {| role := user; content := lit "hi" |} ] (lit "hi"));
    reflexivity.
Defined.

(* ================================================================== *)
(** * Further properties of sanitizeContent *)

Lemma replaceAll_app (from : codeunit) (to a b : jsstring) :
  replaceAll from to (a ++ b) = replaceAll from to a ++ replaceAll from to b.
Proof. unfold replaceAll. apply flat_map_app. Qed.

Lemma fold_replaceAll_app (table : list (codeunit * jsstring)) :
  forall a b,
    fold_left (fun acc ft => replaceAll (fst ft) (snd ft) acc) table (a ++ b)
    = fold_left (fun acc ft => replaceAll (fst ft) (snd ft) acc) table a
      ++ fold_left (fun acc ft => replaceAll (fst ft) (snd ft) acc) table b.
Proof.
  induction table as [|ft table IH]; intros a b; [reflexivity|].
  cbn [fold_left]. now rewrite replaceAll_app, IH.
Qed.

Lemma sanitize_unit_spec (c : codeunit) :
  strip_non_ascii (apply_replacements [c]) = sanitize_unit c.
Proof.
  unfold sanitize_unit.
  destruct (N.eqb c 0x201C) eqn:E1;
    [apply N.eqb_eq in E1; subst; reflexivity|].
  destruct (N.eqb c 0x201D) eqn:E2;
    [apply N.eqb_eq in E2; subst; reflexivity|].
  destruct (N.eqb c 0x2018) eqn:E3;
    [apply N.eqb_eq in E3; subst; reflexivity|].
  destruct (N.eqb c 0x2019) eqn:E4;
    [apply N.eqb_eq in E4; subst; reflexivity|].
  destruct (N.eqb c 0x2014) eqn:E5;
    [apply N.eqb_eq in E5; subst; reflexivity|].
  destruct (N.eqb c 0x2013) eqn:E6;
    [apply N.eqb_eq in E6; subst; reflexivity|].
  destruct (N.eqb c 0x2026) eqn:E7;
    [apply N.eqb_eq in E7; subst; reflexivity|].
  unfold apply_replacements, replacements, replaceAll.
  cbn [fold_left flat_map fst snd orb].
  rewrite E1. cbn [app flat_map]. rewrite E2. cbn [app flat_map].
  rewrite E3. cbn [app flat_map]. rewrite E4. cbn [app flat_map].
  rewrite E5. cbn [app flat_map]. rewrite E6. cbn [app flat_map].
  rewrite E7. cbn [app flat_map].
  unfold strip_non_ascii. cbn [filter]. reflexivity.
Qed.

Lemma sanitize_units (s : jsstring) :
  strip_non_ascii (apply_replacements s) = flat_map sanitize_unit s.
Proof.
  induction s as [|c s IH]; [reflexivity|].
  change (c :: s) with ([c] ++ s).
  unfold apply_replacements. rewrite fold_replaceAll_app.
  fold (apply_replacements [c]). fold (apply_replacements s).
  unfold strip_non_ascii in *. rewrite filter_app, IH.
  fold (strip_non_ascii (apply_replacements [c])).
  now rewrite sanitize_unit_spec.
Qed.

Lemma sanitize_unit_length (c : codeunit) :
  (List.length (sanitize_unit c) <= 3)%nat.
Proof.
  unfold sanitize_unit.
  repeat match goal with
         | |- context [if ?b then _ else _] => destruct b
         end; simpl; lia.
Qed.

(** X14: after the normalization the sanitizer works unit by unit and in
    order: a curly double quote becomes the ASCII double quote, a curly
    single quote the apostrophe, an em or en dash the hyphen, an ellipsis
    three dots, an ASCII unit stays, and any other unit goes; so the result is at most three times as long as the
    normalized text. *)
Theorem sanitizeContent_by_units (P : Platform) (s : jsstring) :
  sanitizeContent P (VString s)
  = Ok (match s with
        | [] => []
        | _ :: _ => flat_map sanitize_unit (normalize_NFKD P s)
        end)
  /\ forall out,
       sanitizeContent P (VString s) = Ok out ->
       (List.length out <= 3 * List.length (normalize_NFKD P s))%nat.
Proof.
  assert (forall t, (List.length (flat_map sanitize_unit t)
                     <= 3 * List.length t)%nat) as Hlen.
  { induction t as [|c t IH]; [simpl; lia|].
    cbn [flat_map]. rewrite length_app. cbn [List.length].
    pose proof (sanitize_unit_length c). lia. }
  rewrite sanitizeContent_string. destruct s as [|c s].
  - split; [reflexivity|]. intros out [= <-]. simpl. lia.
  - rewrite sanitize_units. split; [reflexivity|].
    intros out [= <-]. apply Hlen.
Qed.

Lemma sanitizeContent_by_units_witness :
  (List.length (jq "'Hi...e'")
   <= 3 * List.length (normalize_NFKD reference_platform smart_text))%nat.
Proof.
  apply (proj2 (sanitizeContent_by_units reference_platform smart_text)).
  reflexivity.
Defined.

(* ================================================================== *)
(** * Further properties of the messages sent on *)


Lemma search_query_user_last_witness :
  search_query (assistant_last ++ [ {| role := user; content := lit "r" |} ])
  = Ok (lit "r")
  /\ latest_user_content
       (assistant_last ++ [ {| role := user; content := lit "r" |} ])
     = Some (lit "r").
Proof.
  apply (search_query_user_last assistant_last
           {| role := user; content := lit "r" |}).
  reflexivity.
Defined.

(* ================================================================== *)
(** * Further properties of the page's reader *)

Lemma consume_line_other (text line : jsstring) :
  startsWith (lit "data: ") line = false -> consume_line text line = text.
Proof. intros H. unfold consume_line. now rewrite H. Qed.

Lemma consume_lines_other (lines : list jsstring) (text : jsstring) :
  Forall (fun l => startsWith (lit "data: ") l = false) lines ->
  fold_left consume_line lines text = text.
Proof.
  induction 1 as [|l lines Hl _ IH]; [reflexivity|].
  cbn [fold_left]. now rewrite consume_line_other.
Qed.

Lemma consume_line_data (text a : jsstring) :
  consume_line text (lit "data: " ++ a)
  = if str_eqb a DONE then text else join text a.
Proof.
  unfold consume_line.
  change (startsWith (lit "data: ") (lit "data: " ++ a)) with true.
  change (slice 6 (lit "data: " ++ a)) with a.
  now destruct (str_eqb a DONE).
Qed.

Lemma has_LF_app (a b : jsstring) : has_LF (a ++ b) = has_LF a || has_LF b.
Proof. apply existsb_app. Qed.

(** A read whose text is a data line with the payload [a] followed by
    lines without the prefix: the payload is joined, or skipped when it is
    the mark, and the other lines count for nothing. *)
Lemma consume_chunk_first_line (P : Platform) (text : jsstring)
  (value : bytes) (a rest : jsstring) :
  decode P value = (lit "data: " ++ a) ++ LF :: rest ->
  has_LF a = false ->
  Forall (fun l => startsWith (lit "data: ") l = false) (split LF rest) ->
  consume_chunk P text value
  = if str_eqb a DONE then text else join text a.
Proof.
  intros Hdec Ha Hrest. unfold consume_chunk. rewrite Hdec.
  rewrite split_line by (rewrite has_LF_app, Ha; reflexivity).
  cbn [fold_left]. rewrite consume_line_data.
  now apply consume_lines_other.
Qed.

Lemma consume_line_extends (text line : jsstring) :
  exists more, consume_line text line = text ++ more.
Proof.
  unfold consume_line, join.
  destruct (startsWith (lit "data: ") line);
    [|exists []; now rewrite app_nil_r].
  destruct (negb (str_eqb (slice 6 line) DONE));
    [eexists; reflexivity | exists []; now rewrite app_nil_r].
Qed.

Lemma fold_left_extends {A} (f : jsstring -> A -> jsstring) :
  (forall t x, exists more, f t x = t ++ more) ->
  forall l t, exists more, fold_left f l t = t ++ more.
Proof.
  intros Hf. induction l as [|x l IH]; intros t.
  - exists []. now rewrite app_nil_r.
  - cbn [fold_left]. destruct (Hf t x) as [m1 ->].
    destruct (IH (t ++ m1)) as [m2 ->].
    exists (m1 ++ m2). now rewrite app_assoc.
Qed.

(** X18: the buffer only grows: what it holds after some reads is the
    beginning of what it holds after further reads, whatever they bring. *)
Theorem readStream_extends (P : Platform) (reads more_reads : list bytes) :
  exists more,
    readStream P (reads ++ more_reads) = readStream P reads ++ more.
Proof.
  unfold readStream. rewrite fold_left_app.
  apply fold_left_extends. intros t value. unfold consume_chunk.
  apply fold_left_extends. apply consume_line_extends.
Qed.

(** X19: an event read whole whose payload holds no line feed adds its
    payload with the join and nothing else, and the [[DONE]] event adds
    nothing, when the decoder gives back the text that was encoded. *)
Theorem consume_event (P : Platform) (text c : jsstring) :
  decode P (encode P (sse c)) = sse c ->
  has_LF c = false ->
  consume_chunk P text (encode P (sse c))
  = if str_eqb c DONE then text else join text c.
Proof.
  intros Hdec Hc.
  apply (consume_chunk_first_line P text (encode P (sse c)) c [LF]).
  - rewrite Hdec. unfold sse. now rewrite <- app_assoc.
  - exact Hc.
  - repeat constructor.
Qed.

Lemma consume_event_witness :
  consume_chunk reference_platform (lit "How")
    (encode reference_platform (sse (lit "dy")))
  = lit "How dy".
Proof.
  apply (consume_event reference_platform (lit "How") (lit "dy"));
    reflexivity.
Defined.

(** X20: of a payload that holds a line feed only the part before the
    first line feed reaches the buffer, unless a later line of it starts
    with [data: ]: the rest of the payload is lost to the page. *)
Theorem consume_event_cut_at_LF (P : Platform) (text a b : jsstring) :
  decode P (encode P (sse (a ++ LF :: b))) = sse (a ++ LF :: b) ->
  has_LF a = false ->
  Forall (fun l => startsWith (lit "data: ") l = false)
         (split LF (b ++ [LF; LF])) ->
  consume_chunk P text (encode P (sse (a ++ LF :: b)))
  = if str_eqb a DONE then text else join text a.
Proof.
  intros Hdec Ha Hb.
  apply (consume_chunk_first_line P text _ a (b ++ [LF; LF])).
  - rewrite Hdec. unfold sse. now rewrite <- !app_assoc.
  - exact Ha.
  - exact Hb.
Qed.

Lemma consume_event_cut_at_LF_witness :
  consume_chunk reference_platform []
    (encode reference_platform hello_world_event)
  = lit "Hello".
Proof.
  apply (consume_event_cut_at_LF reference_platform [] (lit "Hello")
           (lit "World")).
  - reflexivity.
  - reflexivity.
  - repeat constructor.
Defined.

Lemma readStream_fold_join (P : Platform) (payloads : list jsstring) :
  Forall (fun c => has_LF c = false
                   /\ decode P (encode P (sse c)) = sse c) payloads ->
  readStream P (map (fun c => encode P (sse c)) payloads)
  = fold_left join
      (filter (fun c => negb (str_eqb c DONE)) payloads) [].
Proof.
  unfold readStream. generalize (@nil codeunit) as text.
  induction payloads as [|c payloads IH]; intros text Hall;
    [reflexivity|].
  inversion Hall as [|? ? [Hc Hdec] Hrest]; subst.
  cbn [map fold_left filter].
  rewrite (consume_chunk_first_line P text (encode P (sse c)) c [LF]).
  - destruct (str_eqb c DONE); cbn [negb fold_left]; now apply IH.
  - rewrite Hdec. unfold sse. now rewrite <- app_assoc.
  - exact Hc.
  - repeat constructor.
Qed.

(** X21: reading events one in each read, with payloads free of line
    feeds, the page ends with the payloads other than [[DONE]] joined from
    left to right, when the decoder gives back the texts encoded. *)
Theorem readStream_events (P : Platform) (payloads : list jsstring) :
  Forall (fun c => has_LF c = false
                   /\ decode P (encode P (sse c)) = sse c) payloads ->
  readStream P (map (fun c => encode P (sse c)) payloads)
  = fold_left join
      (filter (fun c => negb (str_eqb c DONE)) payloads) [].
Proof. apply readStream_fold_join. Qed.

Lemma readStream_events_witness :
  readStream reference_platform
    (map (fun c => encode reference_platform (sse c))
         [lit "It"; lit "'s"; DONE; lit "ok"; lit "."])
  = lit "It's ok.".
Proof.
  apply (readStream_events reference_platform
           [lit "It"; lit "'s"; DONE; lit "ok"; lit "."]).
  repeat constructor.
Defined.

(* ================================================================== *)
(** * The route and the page together *)

Lemma utf8_encode_ascii (s : jsstring) : pure_ascii s -> utf8_encode s = s.
Proof.
  unfold pure_ascii. induction 1 as [|c s Hc _ IH]; [reflexivity|].
  cbn [utf8_encode].
  assert (is_high_surrogate c = false) as ->
    by (unfold is_high_surrogate, in_range;
        apply andb_false_iff; left; apply N.leb_gt; lia).
  assert (is_low_surrogate c = false) as ->
    by (unfold is_low_surrogate, in_range;
        apply andb_false_iff; left; apply N.leb_gt; lia).
  unfold utf8_of.
  assert (N.ltb c 0x80 = true) as -> by (apply N.ltb_lt; lia).
  cbn [app]. now rewrite IH.
Qed.

Lemma utf8_run_lossy_ascii (s : jsstring) :
  pure_ascii s -> utf8_run_lossy utf8_start s = s.
Proof.
  unfold pure_ascii. induction 1 as [|c s Hc _ IH]; [reflexivity|].
  cbn [utf8_run_lossy].
  assert (utf8_step utf8_start c = SEmit c) as ->.
  { unfold utf8_step. cbn [u_needed utf8_start]. cbn [N.eqb].
    assert (in_range 0x00 0x7F c = true) as ->; [|reflexivity].
    unfold in_range. apply andb_true_iff.
    split; apply N.leb_le; lia. }
  now rewrite IH.
Qed.

Lemma utf16_units_ascii (s : jsstring) :
  pure_ascii s -> flat_map utf16_of s = s.
Proof.
  unfold pure_ascii. induction 1 as [|c s Hc _ IH]; [reflexivity|].
  cbn [flat_map]. unfold utf16_of at 1.
  assert (N.ltb c 0x10000 = true) as -> by (apply N.ltb_lt; lia).
  cbn [app]. now rewrite IH.
Qed.

(** On ASCII the reference decoder gives back what the reference encoder
    was given. *)
Lemma reference_codec_ascii (s : jsstring) :
  pure_ascii s -> decode reference_platform (encode reference_platform s) = s.
Proof.
  intros Hs. cbn [decode encode reference_platform].
  rewrite (utf8_encode_ascii s Hs). unfold utf8_decode_lossy.
  rewrite (utf8_run_lossy_ascii s Hs).
  destruct s as [|c s]; [reflexivity|].
  unfold serialize. cbn [negb andb].
  assert (N.eqb c 0xFEFF = false) as ->.
  { apply N.eqb_neq. inversion Hs; subst. lia. }
  cbn [fst]. now apply utf16_units_ascii.
Qed.

Lemma messages_payloads (messages : list jsstring) :
  Forall (fun m => pure_ascii m /\ exists c, m = sse c /\ c <> []) messages ->
  exists payloads,
    messages = map sse payloads
    /\ Forall (fun c => pure_ascii (sse c)) payloads.
Proof.
  induction 1 as [|m messages (Hm & c & -> & _) _ (payloads & -> & Hall)].
  - exists []. split; [reflexivity | constructor].
  - exists (c :: payloads). split; [reflexivity | now constructor].
Qed.

(** X22: the page behind the route, reading each enqueued event in a read
    of its own, on a platform whose decoder gives back the ASCII texts its
    encoder was given: the events are [data: <payload>\n\n] for a list of
    payloads, and when no payload holds a line feed the buffer ends as the
    payloads other than [[DONE]] joined from left to right. *)
Theorem page_after_transform (P : Platform) (up : Upstream) :
  (forall s, pure_ascii s -> decode P (encode P s) = s) ->
  exists payloads,
    fst (transform P (Some up)) = map (fun c => encode P (sse c)) payloads
    /\ (Forall (fun c => has_LF c = false) payloads ->
        readStream P (fst (transform P (Some up)))
        = fold_left join
            (filter (fun c => negb (str_eqb c DONE)) payloads) []).
Proof.
  intros Hcodec. rewrite transform_lines. cbn [fst].
  assert (Forall (fun m => pure_ascii m /\ exists c, m = sse c /\ c <> [])
            (flat_map (line_messages P)
                      (complete_lines (decoded_text P up)))) as Hall.
  { apply Forall_forall. intros m Hm.
    apply in_flat_map in Hm. destruct Hm as (line & _ & Hm).
    split; [eapply line_messages_pure | eapply line_messages_payload];
      eassumption. }
  destruct (messages_payloads _ Hall) as (payloads & -> & Hpure).
  exists payloads. rewrite map_map. split; [reflexivity|].
  intros HLF. apply readStream_fold_join.
  rewrite Forall_forall in *. intros c Hc. split; auto.
Qed.

Lemma page_after_transform_witness :
  (forall s, pure_ascii s ->
             decode reference_platform (encode reference_platform s) = s)
  /\ exists payloads,
       fst (transform reference_platform (Some hello_upstream))
       = map (fun c => encode reference_platform (sse c)) payloads.
Proof.
  split; [exact reference_codec_ascii|].
  destruct (page_after_transform reference_platform hello_upstream
              reference_codec_ascii) as (payloads & H & _).
  now exists payloads.
Defined.

(** X23: when the body is accepted and the search answers but all four
    requests to the completion provider fail, the answer is the failure
    with the error of the fourth request; no stream is started. *)
Theorem POST_network_failure (P : Platform) (env : Env) (body : value)
  (messages : list ChatMessage) (query results : jsstring) (pl : value)
  (search : jsstring -> result jsstring)
  (fetch : nat -> jsstring -> RequestInit -> fetch_outcome)
  (err : nat -> exn) :
  unset (TOGETHER_API_KEY env) = false ->
  unset (TAVILY_API_KEY env) = false ->
  validate_body body = Ok messages ->
  search_query messages = Ok query ->
  search query = Ok results ->
  payload P (inject (systemMessage results) messages) = Ok pl ->
  (forall n, (n < 4)%nat ->
             try_fetch (fetch n together_url
                          (request_options (key_text (TOGETHER_API_KEY env))
                                           pl))
             = Throw (err n)) ->
  POST P env (Ok body) search fetch = Failed (err 3%nat).
Proof.
  intros K1 K2 V Q S Pl Herr. unfold POST.
  rewrite K1, K2. cbn [bind]. rewrite V. cbn [bind].
  rewrite Q. cbn [bind]. rewrite S. cbn [bind]. rewrite Pl. cbn [bind].
  unfold default_retries.
  erewrite fetchWithRetries_retry by (apply (Herr 0%nat); lia).
  erewrite fetchWithRetries_retry by (apply (Herr 1%nat); lia).
  erewrite fetchWithRetries_retry by (apply (Herr 2%nat); lia).
  erewrite fetchWithRetries_give_up by (apply (Herr 3%nat); lia).
  reflexivity.
Qed.

Lemma POST_network_failure_witness :
  POST reference_platform both_keys (Ok hi_body) empty_search failing_fetch
  = Failed (Rejected 3).
Proof.
  eapply (POST_network_failure reference_platform both_keys hi_body
            [ {| role := user; content := lit "hi" |} ] (lit "hi") (lit "{}")
            _ empty_search failing_fetch (fun n => Rejected (N.of_nat n)));
    reflexivity.
Defined.
